(** * UpAndUp presence server: a shallow embedding of [server.js]

    The server keeps three pieces of shared state ([users], [connectedUsers],
    [sseClients]) and mutates them from the WebSocket and HTTP handlers.  Each
    handler is embedded as a function from the state before to the state after
    together with the list of effects it performed (console lines, writes of
    [users.json], writes to server-sent-event responses, WebSocket replies).

    Modelling conventions:
    - a JavaScript value that is a string or [undefined] is an [option string];
    - [users] is a plain object used as a dictionary; its own properties are a
      [gmap string User].  [users[steamId]] follows the prototype chain: a
      key that is not an own property finds what [Object.prototype] holds
      under that name, its own members or what the handlers have assigned on
      it through [users["__proto__"]].  What the libraries ([express], [ws],
      [fs]) do when [Object.prototype] has been given properties is outside
      the model, and so is the enumeration order of [Object.values];
    - [connectedUsers] is a [Set] of such values, a [gset (option string)];
    - [JSON.stringify] and [toLocaleString] are kept symbolic: the payloads of
      the effects carry the value that is serialised;
    - numbers are IEEE binary64 values, kept exactly as [m * 2^e]. *)

From Stdlib Require Import ZArith Ascii String DecimalString.
From Stdlib Require DecimalPos DecimalN.
From stdpp Require Import gmap strings list fin_maps.

Local Open Scope string_scope.

(** ** JavaScript strings *)

(** [s.split(sep)] for a one-character separator: the pieces between the
    occurrences of [sep]; never the empty array. *)
Fixpoint split (sep : ascii) (s : string) : list string :=
  match s with
  | EmptyString => [EmptyString]
  | String c rest =>
      if Ascii.eqb c sep then EmptyString :: split sep rest
      else match split sep rest with
           | [] => [String c EmptyString]
           | p :: ps => String c p :: ps
           end
  end.

(** A value that is a string or [undefined]. *)
Abbreviation JsVal := (option string).

(** [ToPropertyKey]: how a value indexes an object ([users[steamId]]). *)
Definition toPropertyKey (v : JsVal) : string :=
  match v with Some s => s | None => "undefined" end.

(** [v || dflt] on such a value: [undefined] and the empty string are falsy. *)
Definition or_else (v : JsVal) (dflt : string) : string :=
  match v with
  | Some EmptyString | None => dflt
  | Some s => s
  end.

(** ** JavaScript numbers: [parseFloat] and [toFixed] *)

Module JSNumber.

Local Open Scope Z_scope.

(** A binary64 value.  [Finite neg m e] is [(-1)^neg * m * 2^e];
    [Finite true 0 _] is the negative zero. *)
Inductive Number :=
| NaN
| Infinity (neg : bool)
| Finite (neg : bool) (m : N) (e : Z).

Definition is_digit (c : ascii) : bool :=
  let n := Z.of_N (N_of_ascii c) in (48 <=? n) && (n <=? 57).

Definition digit_val (c : ascii) : Z := Z.of_N (N_of_ascii c) - 48.

(** The longest prefix of decimal digits, and what follows it. *)
Fixpoint span_digits (s : string) : list ascii * string :=
  match s with
  | String c rest =>
      if is_digit c then let '(ds, r) := span_digits rest in (c :: ds, r)
      else ([], s)
  | EmptyString => ([], s)
  end.

Definition digits_value (ds : list ascii) : Z :=
  fold_left (fun acc c => 10 * acc + digit_val c) ds 0.

(** [rest] when [s] starts with [p]. *)
Fixpoint strip_prefix (p s : string) : option string :=
  match p, s with
  | EmptyString, _ => Some s
  | String a p', String b s' => if Ascii.eqb a b then strip_prefix p' s' else None
  | String _ _, EmptyString => None
  end.

Definition bytes (l : list N) : string :=
  string_of_list_ascii (map ascii_of_N l).

(** The white space and line terminators of ECMAScript, as UTF-8. *)
Definition white_space : list string :=
  map bytes
    [ [9%N]; [10%N]; [11%N]; [12%N]; [13%N]; [32%N];
      [194; 160]%N;
      [225; 154; 128]%N;
      [226; 128; 128]%N; [226; 128; 129]%N; [226; 128; 130]%N;
      [226; 128; 131]%N; [226; 128; 132]%N; [226; 128; 133]%N;
      [226; 128; 134]%N; [226; 128; 135]%N; [226; 128; 136]%N;
      [226; 128; 137]%N; [226; 128; 138]%N;
      [226; 128; 168]%N; [226; 128; 169]%N; [226; 128; 175]%N;
      [226; 129; 159]%N;
      [227; 128; 128]%N;
      [239; 187; 191]%N ].

Definition strip_one_space (s : string) : option string :=
  fold_right (fun w acc => match strip_prefix w s with
                           | Some r => Some r
                           | None => acc
                           end) None white_space.

(** [TrimString(s, start)]. *)
Fixpoint trim_start (fuel : nat) (s : string) : string :=
  match fuel with
  | O => s
  | S fuel' => match strip_one_space s with
               | Some r => trim_start fuel' r
               | None => s
               end
  end.

(** Rounding of the positive rational [num / den] to the nearest binary64
    value, ties to even: the exponent of the last place is [q], at least
    -1074 (subnormals), and a result of [2^1024] or more is infinite. *)
Definition round_quotient_even (n d : Z) : Z :=
  let q := n / d in
  let r := n mod d in
  match 2 * r ?= d with
  | Lt => q
  | Gt => q + 1
  | Eq => if Z.even q then q else q + 1
  end.

Definition floor_log2_ratio (num den : Z) : Z :=
  let e := Z.log2 num - Z.log2 den in
  let below := if 0 <=? e then num <? den * 2 ^ e else num * 2 ^ (- e) <? den in
  if below then e - 1 else e.

Definition round_binary64 (neg : bool) (num den : Z) : Number :=
  if num =? 0 then Finite neg 0%N 0
  else
    let e := floor_log2_ratio num den in
    let q := Z.max (e - 52) (-1074) in
    let m := if 0 <=? q then round_quotient_even num (den * 2 ^ q)
             else round_quotient_even (num * 2 ^ (- q)) den in
    if (0 <=? q) && (2 ^ 1024 <=? m * 2 ^ q) then Infinity neg
    else Finite neg (Z.to_N m) q.

(** The number value of the decimal [d * 10^p].  Exponents beyond the range
    of binary64 are cut short before any power is computed: [d * 10^p] with
    [1 <= d] and [400 < p] is infinite, and a value below [10^-400] is zero. *)
Definition of_decimal (neg : bool) (d p : Z) : Number :=
  if d =? 0 then Finite neg 0%N 0
  else if 400 <? p then Infinity neg
  else if p + Z.log2 d / 3 + 1 <? -400 then Finite neg 0%N 0
  else if 0 <=? p then round_binary64 neg (d * 10 ^ p) 1
  else round_binary64 neg d (10 ^ (- p)).

(** [ExponentPart] of a [StrDecimalLiteral]: [e] or [E], an optional sign and
    at least one digit; anything else is not part of the literal. *)
Definition parse_exponent (s : string) : Z :=
  match s with
  | String c rest =>
      if Ascii.eqb c "e" || Ascii.eqb c "E" then
        let '(sg, rest') :=
          match rest with
          | String "+" r => (1, r)
          | String "-" r => (-1, r)
          | _ => (1, rest)
          end in
        match span_digits rest' with
        | ([], _) => 0
        | (ds, _) => sg * digits_value ds
        end
      else 0
  | EmptyString => 0
  end.

(** [StrUnsignedDecimalLiteral]: [Infinity], or digits with an optional
    fraction and exponent, or a fraction that starts with the point. *)
Definition parse_unsigned (neg : bool) (s : string) : Number :=
  match strip_prefix "Infinity" s with
  | Some _ => Infinity neg
  | None =>
      let '(ip, r1) := span_digits s in
      let '(fp, r2) :=
        match r1 with
        | String "." r => span_digits r
        | _ => ([], r1)
        end in
      match ip, fp with
      | [], [] => NaN
      | _, _ =>
          let after := match ip, r1 with
                       | [], _ => r2
                       | _, String "." _ => r2
                       | _, _ => r1
                       end in
          of_decimal neg (digits_value (ip ++ fp))
                     (parse_exponent after - Z.of_nat (length fp))
      end
  end.

(** [parseFloat(v)]: [ToString], trim, then the longest prefix that is a
    [StrDecimalLiteral]; [NaN] when there is none. *)
Definition parseFloat (v : JsVal) : Number :=
  let s := toPropertyKey v in
  match trim_start (String.length s) s with
  | String "+" r => parse_unsigned false r
  | String "-" r => parse_unsigned true r
  | t => parse_unsigned false t
  end.

(** The decimal digits of a natural number, most significant first. *)
Definition decimal_digits (n : Z) : list ascii :=
  list_ascii_of_string (NilZero.string_of_uint (N.to_uint (Z.to_N n))).

(** [10^k <= m * 2^e]. *)
Definition pow10_le (k m e : Z) : bool :=
  if 0 <=? e then 10 ^ k <=? m * 2 ^ e else 10 ^ k * 2 ^ (- e) <=? m.

(** Whether the decimal [s * 10^p] has the integer [X] as its number value. *)
Definition reads_back (s p X : Z) : bool :=
  match of_decimal false s p with
  | Finite _ m q =>
      if 0 <=? q then Z.of_N m * 2 ^ q =? X else Z.of_N m =? X * 2 ^ (- q)
  | _ => false
  end.

(** [Number::toString] asks for the fewest digits [k] and the integers [s],
    [n] with [10^(k-1) <= s < 10^k] such that [s * 10^(n-k)] has [X] as its
    number value, [s] as close to the value as possible.  Here [X] is an
    integer of [nd] digits; for a given [k] the two candidates lie on either
    side of [X]. *)
Definition shortest_at (X nd k : Z) : option (Z * Z) :=
  let p := nd - k in
  let lo := X / 10 ^ p in
  let hi := lo + 1 in
  let pick_hi := if hi =? 10 ^ k then (hi / 10, nd + 1) else (hi, nd) in
  match reads_back lo p X, reads_back hi p X with
  | true, true =>
      match X - lo * 10 ^ p ?= hi * 10 ^ p - X with
      | Lt => Some (lo, nd)
      | Gt => Some pick_hi
      | Eq => Some (if Z.even lo then (lo, nd) else pick_hi)
      end
  | true, false => Some (lo, nd)
  | false, true => Some pick_hi
  | false, false => None
  end.

Fixpoint shortest_from (fuel : nat) (X nd k : Z) : Z * Z :=
  match fuel with
  | O => (X, nd)
  | S fuel' =>
      match shortest_at X nd k with
      | Some r => r
      | None => shortest_from fuel' X nd (k + 1)
      end
  end.

(** [Number::toString(x)] for an integer [X] of at least [10^21]: always the
    exponential form, [d e+N] or [d.ddd e+N]. *)
Definition toString_large (X : Z) : string :=
  let nd := Z.of_nat (length (decimal_digits X)) in
  let '(s, n) := shortest_from 17 X nd 1 in
  let expo := String "e" (String "+" (string_of_list_ascii (decimal_digits (n - 1)))) in
  match decimal_digits s with
  | [] => expo
  | [d] => String d expo
  | d :: ds => String d (String "." (string_of_list_ascii ds ++ expo))
  end.

(** The integer [n] for which [n / 10^f] is nearest to [m * 2^e], the larger
    one when two are as near. *)
Definition scaled_nearest (f m e : Z) : Z :=
  if 0 <=? e then m * 2 ^ e * 10 ^ f
  else (2 * m * 10 ^ f + 2 ^ (- e)) / (2 * 2 ^ (- e)).

(** [Number.prototype.toFixed(f)], for [0 <= f <= 100]. *)
Definition toFixed (f : nat) (x : Number) : string :=
  match x with
  | NaN => "NaN"
  | Infinity false => "Infinity"
  | Infinity true => "-Infinity"
  | Finite neg m e =>
      let s := if neg && (0 <? Z.of_N m) then "-" else "" in
      if pow10_le 21 (Z.of_N m) e
      then (s ++ toString_large (Z.of_N m * 2 ^ e))%string
      else
        let n := scaled_nearest (Z.of_nat f) (Z.of_N m) e in
        let ds := decimal_digits n in
        match f with
        | O => (s ++ string_of_list_ascii ds)%string
        | _ =>
            let ds := if (length ds <=? f)%nat
                      then (repeat "0"%char (f + 1 - length ds) ++ ds)%list
                      else ds in
            let k := length ds in
            (s ++ string_of_list_ascii (take (k - f)%nat ds)
               ++ String "." (string_of_list_ascii (drop (k - f)%nat ds)))%string
        end
  end.

(** Reading back a string of the shape [-]d+.dd, a number written with
    exactly two fraction digits: its sign and its number of hundredths. *)
Definition read_fixed2 (s : string) : option (bool * Z) :=
  let '(neg, body) := match s with
                      | String c r => if Ascii.eqb c "-" then (true, r) else (false, s)
                      | EmptyString => (false, s)
                      end in
  match span_digits body with
  | (c :: ip, String "." (String d1 (String d2 EmptyString))) =>
      if is_digit d1 && is_digit d2
      then Some (neg, digits_value (c :: ip ++ [d1; d2]))
      else None
  | _ => None
  end.

Definition two_fraction_digits (s : string) : bool :=
  match read_fixed2 s with Some _ => true | None => false end.

(** A decimal numeral: an optional sign, digits, and an optional fraction. *)
Definition decimal_numeral (s : string) : bool :=
  let body := match s with
              | String c r => if Ascii.eqb c "-" || Ascii.eqb c "+" then r else s
              | EmptyString => s
              end in
  match span_digits body with
  | (_ :: _, EmptyString) => true
  | (_ :: _, String "." r) =>
      match span_digits r with
      | (_ :: _, EmptyString) => true
      | _ => false
      end
  | _ => false
  end.

End JSNumber.

(** ** The data of the server *)

Local Open Scope list_scope.

(** A record of [users].  A field is the value of the own property; it is
    [None] when that value is [undefined] (a HELLO message with fewer fields
    than five) and also when the record has no such property (a record of
    [users.json] that lacks it), in which case the name of the property is a
    member of [absent]: reading it goes on to [Object.prototype]. *)
Record User := mkUserWith {
  steamId : JsVal;
  username : JsVal;
  region : JsVal;
  timezone : JsVal;
  firstConnected : JsVal;
  lastConnected : JsVal;
  lastPosition : JsVal;
  absent : gset string
}.

(** The object literal of the HELLO branch: all seven properties are own. *)
Definition mkUser (steamId username region timezone firstConnected
                   lastConnected lastPosition : JsVal) : User :=
  mkUserWith steamId username region timezone firstConnected lastConnected
             lastPosition ∅.

(** The properties the handlers can assign on [Object.prototype], through
    [users["__proto__"].username = ...] and the like.  [None] is a property
    never assigned; [Some v] is one assigned the value [v]. *)
Record Prototype := mkPrototype {
  p_username : option JsVal;
  p_region : option JsVal;
  p_timezone : option JsVal;
  p_lastConnected : option JsVal;
  p_lastPosition : option JsVal
}.

Definition empty_prototype : Prototype := mkPrototype None None None None None.

(** The property [k] among those assigned on [Object.prototype]. *)
Definition prototype_get (p : Prototype) (k : string) : option JsVal :=
  if decide (k = "username") then p_username p
  else if decide (k = "region") then p_region p
  else if decide (k = "timezone") then p_timezone p
  else if decide (k = "lastConnected") then p_lastConnected p
  else if decide (k = "lastPosition") then p_lastPosition p
  else None.

(** The functions every object inherits from [Object.prototype]. *)
Definition prototype_functions : list string :=
  ["constructor"; "__defineGetter__"; "__defineSetter__"; "hasOwnProperty";
   "__lookupGetter__"; "__lookupSetter__"; "isPrototypeOf";
   "propertyIsEnumerable"; "toString"; "valueOf"; "toLocaleString"].

(** [new Date(iso).toLocaleString()], kept symbolic, or the string ["N/A"]. *)
Inductive Joined :=
| JoinedNA
| LocaleString (iso : string).

(** One entry of the array [formatUsers] returns. *)
Record UserView := mkUserView {
  view_username : string;
  view_steamId : string;
  view_joined : Joined;
  view_connected : bool;
  view_lastPosition : string
}.

(** What the handlers write to the console. *)
Inductive LogLine :=
| LogParseFailed
| LogClientConnected
| LogNewUser (username steamId : JsVal)
| LogReturningUser (username steamId : JsVal)
| LogUnknownCommand (msg : string)
| LogClientDisconnected.

(** The effects of a handler, in the order they happen.  [res] names a
    server-sent-event response and [ws] a WebSocket.  The three [WsSend]
    effects are the WELCOME reply, by what [JSON.stringify] is given: a
    record, or [undefined] or a function (both give the text [undefined]);
    [Object.prototype]; a string. *)
Inductive Effect :=
| Console (l : LogLine)
| WriteUsersFile (content : gmap string User)
| SseHeaders (res : nat)
| SseWrite (res : nat) (data : list UserView)
| PageSend (data : list UserView)
| WsSend (ws : nat) (welcome : option User)
| WsSendPrototype (ws : nat) (welcome : Prototype)
| WsSendString (ws : nat) (welcome : string).

(** The shared state: the three top-level variables of [server.js];
    [wss.clients], the sockets the WebSocket server holds open; and what the
    handlers have assigned on [Object.prototype]. *)
Record Server := mkServer {
  users : gmap string User;
  connectedUsers : gset JsVal;
  sseClients : list nat;
  clients : gset nat;
  prototype : Prototype
}.

Definition set_users (u : gmap string User) (s : Server) : Server :=
  mkServer u (connectedUsers s) (sseClients s) (clients s) (prototype s).

Definition set_connectedUsers (c : gset JsVal) (s : Server) : Server :=
  mkServer (users s) c (sseClients s) (clients s) (prototype s).

Definition set_sseClients (l : list nat) (s : Server) : Server :=
  mkServer (users s) (connectedUsers s) l (clients s) (prototype s).

Definition set_clients (c : gset nat) (s : Server) : Server :=
  mkServer (users s) (connectedUsers s) (sseClients s) c (prototype s).

Definition set_prototype (p : Prototype) (s : Server) : Server :=
  mkServer (users s) (connectedUsers s) (sseClients s) (clients s) p.

(** What [users[k]] evaluates to. *)
Inductive Property :=
| PRecord (u : User)
| PFunction
| PPrototype
| PValue (v : JsVal).

(** [users[k]]: the own property when there is one, a record; otherwise what
    [Object.prototype] holds under the name: itself for [__proto__], one of
    its functions, a value a handler assigned on it, or nothing
    ([undefined]). *)
Definition users_get (s : Server) (k : string) : Property :=
  match users s !! k with
  | Some u => PRecord u
  | None =>
      if decide (k = "__proto__") then PPrototype
      else if decide (k ∈ prototype_functions) then PFunction
      else PValue (default None (prototype_get (prototype s) k))
  end.

(** Objects and non-empty strings are truthy. *)
Definition truthy (p : Property) : bool :=
  match p with
  | PValue None | PValue (Some EmptyString) => false
  | _ => true
  end.

(** [u.name] for a record [u] whose own value for [name] is [own]. *)
Definition get_field (s : Server) (u : User) (name : string) (own : JsVal) : JsVal :=
  match own with
  | Some v => Some v
  | None =>
      if decide (name ∈ absent u)
      then default None (prototype_get (prototype s) name)
      else None
  end.

(** ** Start-up: loading [users.json] *)

(** The result of an expression that may throw. *)
Inductive Outcome (A : Type) :=
| Returned (a : A)
| Thrown.
Arguments Returned {A} a.
Arguments Thrown {A}.

(** [try { users = e } catch { console.error(..); users = {} }]. *)
Definition try_parse (e : Outcome (gmap string User))
  : Outcome (gmap string User * list Effect) :=
  match e with
  | Returned u => Returned (u, [])
  | Thrown => Returned (∅, [Console LogParseFailed])
  end.

(** The top of [server.js]: [users] starts empty and is replaced by the
    content of the file when the file exists.  [file_exists] is the answer of
    [fs.existsSync] and [parsed] the outcome of
    [JSON.parse(fs.readFileSync(USERS_FILE, "utf8"))]. *)
Definition load_users (file_exists : bool) (parsed : Outcome (gmap string User))
  : Outcome (gmap string User * list Effect) :=
  if file_exists then try_parse parsed else Returned (∅, []).

(** The state once the module has been evaluated. *)
Definition startup (file_exists : bool) (parsed : Outcome (gmap string User))
  : Outcome (Server * list Effect) :=
  match load_users file_exists parsed with
  | Returned (u, log) => Returned (mkServer u ∅ [] ∅ empty_prototype, log)
  | Thrown => Thrown
  end.

(** ** The handlers *)

Definition saveUsers (s : Server) : list Effect :=
  [WriteUsersFile (users s)].

Definition formatUser (s : Server) (u : User) : UserView :=
  {| view_username := or_else (get_field s u "username" (username u)) "(unknown)";
     view_steamId := or_else (get_field s u "steamId" (steamId u)) "N/A";
     view_joined := match get_field s u "firstConnected" (firstConnected u) with
                    | Some EmptyString | None => JoinedNA
                    | Some iso => LocaleString iso
                    end;
     view_connected :=
       bool_decide (get_field s u "steamId" (steamId u) ∈ connectedUsers s);
     view_lastPosition :=
       or_else (get_field s u "lastPosition" (lastPosition u)) "N/A" |}.

Definition formatUsers (s : Server) : list UserView :=
  formatUser s <$> (map_to_list (users s)).*2.

Definition broadcastUsers (s : Server) : list Effect :=
  (fun res => SseWrite res (formatUsers s)) <$> sseClients s.

(** [GET /]: the page, with the roster of the moment written into it. *)
Definition get_index (s : Server) : Server * list Effect :=
  (s, [PageSend (formatUsers s)]).

(** [GET /events]. *)
Definition get_events (res : nat) (s : Server) : Server * list Effect :=
  let s' := set_sseClients (sseClients s ++ [res]) s in
  (s', [SseHeaders res; SseWrite res (formatUsers s')]).

(** The [close] handler of the request behind [res]. *)
Definition events_close (res : nat) (s : Server) : Server * list Effect :=
  (set_sseClients (filter (fun c => c ≠ res) (sseClients s)) s, []).

(** The coordinates of a POSITION message as they are stored. *)
Definition position_string (x y z : JsVal) : string :=
  JSNumber.toFixed 2 (JSNumber.parseFloat x) +:+ ", "
  +:+ JSNumber.toFixed 2 (JSNumber.parseFloat y) +:+ ", "
  +:+ JSNumber.toFixed 2 (JSNumber.parseFloat z).

(** The record a first HELLO creates. *)
Definition new_user (parts : list string) (now : string) : User :=
  mkUser (parts !! 1%nat) (parts !! 2%nat) (parts !! 3%nat) (parts !! 4%nat)
         (Some now) (Some now) (Some "N/A").

(** The four assignments of a HELLO for a record that exists. *)
Definition returning_user (old : User) (parts : list string) (now : string) : User :=
  mkUserWith (steamId old) (parts !! 2%nat) (parts !! 3%nat) (parts !! 4%nat)
             (firstConnected old) (Some now) (lastPosition old)
             (absent old ∖ {["username"; "region"; "timezone"; "lastConnected"]}).

(** The assignment to [lastPosition] of a POSITION message. *)
Definition moved_user (old : User) (parts : list string) : User :=
  mkUserWith (steamId old) (username old) (region old) (timezone old)
             (firstConnected old) (lastConnected old)
             (Some (position_string (parts !! 2%nat) (parts !! 3%nat)
                                    (parts !! 4%nat)))
             (absent old ∖ {["lastPosition"]}).

(** The same four assignments when [users[steamId]] is [Object.prototype]. *)
Definition returning_prototype (p : Prototype) (parts : list string) (now : string)
  : Prototype :=
  mkPrototype (Some (parts !! 2%nat)) (Some (parts !! 3%nat))
              (Some (parts !! 4%nat)) (Some (Some now)) (p_lastPosition p).

Definition moved_prototype (p : Prototype) (parts : list string) : Prototype :=
  mkPrototype (p_username p) (p_region p) (p_timezone p) (p_lastConnected p)
              (Some (Some (position_string (parts !! 2%nat) (parts !! 3%nat)
                                           (parts !! 4%nat)))).

(** [ws.send(`WELCOME|${JSON.stringify(users[steamId])}`)]. *)
Definition welcome (ws : nat) (s : Server) (key : string) : Effect :=
  match users_get s key with
  | PRecord u => WsSend ws (Some u)
  | PFunction => WsSend ws None
  | PPrototype => WsSendPrototype ws (prototype s)
  | PValue (Some v) => WsSendString ws v
  | PValue None => WsSend ws None
  end.

(** The HELLO branch.  [now] is [new Date().toISOString()]. *)
Definition hello (ws : nat) (parts : list string) (now : string) (s : Server)
  : Server * list Effect :=
  let steamId' := parts !! 1%nat in
  let username' := parts !! 2%nat in
  let key := toPropertyKey steamId' in
  let created := (set_users (<[key := new_user parts now]> (users s)) s,
                  LogNewUser username' steamId') in
  let '(s1, line) :=
    match users_get s key with
    | PRecord old =>
        (set_users (<[key := returning_user old parts now]> (users s)) s,
         LogReturningUser username' steamId')
    | PFunction =>
        (* the four assignments land on the function object *)
        (s, LogReturningUser username' steamId')
    | PPrototype =>
        (set_prototype (returning_prototype (prototype s) parts now) s,
         LogReturningUser username' steamId')
    | PValue v =>
        (* assignments on a string are dropped *)
        if truthy (PValue v) then (s, LogReturningUser username' steamId')
        else created
    end in
  let s2 := set_connectedUsers ({[steamId']} ∪ connectedUsers s1) s1 in
  (s2, [Console line] ++ saveUsers s2 ++ broadcastUsers s2 ++ [welcome ws s2 key]).

(** The POSITION branch. *)
Definition position (parts : list string) (s : Server) : Server * list Effect :=
  let key := toPropertyKey (parts !! 1%nat) in
  let published s1 := (s1, saveUsers s1 ++ broadcastUsers s1) in
  match users_get s key with
  | PRecord old =>
      published (set_users (<[key := moved_user old parts]> (users s)) s)
  | PFunction => published s
  | PPrototype => published (set_prototype (moved_prototype (prototype s) parts) s)
  | PValue v => if truthy (PValue v) then published s else (s, [])
  end.

(** [msg.toString().split("|")] and its first piece; [msg] stands for
    [msg.toString()]. *)
Definition parts (msg : string) : list string := split "|" msg.

Definition command (msg : string) : JsVal := parts msg !! 0%nat.

(** [ws.on("message", ...)]. *)
Definition on_message (ws : nat) (msg : string) (now : string) (s : Server)
  : Server * list Effect :=
  if decide (command msg = Some "HELLO") then hello ws (parts msg) now s
  else if decide (command msg = Some "POSITION") then position (parts msg) s
  else (s, [Console (LogUnknownCommand msg)]).

(** [connectedUsers.forEach(steamId => connectedUsers.delete(steamId))]:
    every member is visited once and deleted when visited. *)
Definition delete_each (c : gset JsVal) : gset JsVal :=
  foldr (fun steamId acc => acc ∖ {[steamId]}) c (elements c).

(** [ws.on("close", ...)]. *)
Definition on_close (s : Server) : Server * list Effect :=
  let s1 := set_connectedUsers (delete_each (connectedUsers s)) s in
  (s1, [Console LogClientDisconnected] ++ broadcastUsers s1).

(** ** Events and runs *)

Inductive Event :=
| Connection (ws : nat)
| Message (ws : nat) (msg : string) (now : string)
| Close (ws : nat)
| GetIndex
| GetEvents (res : nat)
| EventsClose (res : nat).

(** One event: the WebSocket server adds the socket to [wss.clients] when it
    connects and drops it when it closes; the handlers registered by
    [server.js] do the rest. *)
Definition step (s : Server) (e : Event) : Server * list Effect :=
  match e with
  | Connection ws =>
      (set_clients ({[ws]} ∪ clients s) s, [Console LogClientConnected])
  | Message ws msg now => on_message ws msg now s
  | Close ws => on_close (set_clients (clients s ∖ {[ws]}) s)
  | GetIndex => get_index s
  | GetEvents res => get_events res s
  | EventsClose res => events_close res s
  end.

Fixpoint run (s : Server) (es : list Event) : Server * list Effect :=
  match es with
  | [] => (s, [])
  | e :: es' =>
      let '(s1, out1) := step s e in
      let '(s2, out2) := run s1 es' in
      (s2, out1 ++ out2)
  end.

(** The state of a server that found no [users.json]. *)
Definition fresh : Server := mkServer ∅ ∅ [] ∅ empty_prototype.

(** The identity key a message carries. *)
Definition key_of (msg : string) : string := toPropertyKey (parts msg !! 1%nat).

(** A HELLO message that carries [key]. *)
Definition hello_for (key : string) (e : Event) : bool :=
  match e with
  | Message _ msg _ =>
      bool_decide (command msg = Some "HELLO") && bool_decide (key_of msg = key)
  | _ => false
  end.

(** The session states of the specification.  [server.js] keeps no such
    state; in a run, the session on socket [ws] is Identified once a HELLO
    message has arrived on it, and Unidentified before. *)
Definition spec_identified (tr : list Event) (ws : nat) : bool :=
  existsb (fun e => match e with
                    | Message w msg _ =>
                        bool_decide (w = ws) && bool_decide (command msg = Some "HELLO")
                    | _ => false
                    end) tr.

(** The snapshots written to the feed [res], oldest first. *)
Definition written_to (res : nat) (out : list Effect) : list (list UserView) :=
  omap (fun e => match e with
                 | SseWrite r data => if decide (r = res) then Some data else None
                 | _ => None
                 end) out.

(** A finite number of magnitude below [10^21]. *)
Definition below_1e21 (x : JSNumber.Number) : bool :=
  match x with
  | JSNumber.Finite _ m e => negb (JSNumber.pow10_le 21 (Z.of_N m) e)
  | _ => false
  end.

(** The sign [toFixed] writes and the number of hundredths nearest to a
    finite number. *)
Definition hundredths (x : JSNumber.Number) : option (bool * Z) :=
  match x with
  | JSNumber.Finite neg m e =>
      Some (neg && (0 <? Z.of_N m)%Z, JSNumber.scaled_nearest 2 (Z.of_N m) e)
  | _ => None
  end.

(** [s] is the number [x] written with exactly two fraction digits: it has
    the shape [-]d+.dd and reads back as the sign of [x] and the number of
    hundredths nearest to [x]. *)
Definition written_fixed2 (x : JSNumber.Number) (s : string) : Prop :=
  JSNumber.two_fraction_digits s = true
  ∧ JSNumber.read_fixed2 s = hundredths x.

(** ** Observations on events and effects *)

(** The content of the last write of [users.json] among the effects. *)
Definition last_saved (out : list Effect) : option (gmap string User) :=
  last (omap (fun e => match e with
                       | WriteUsersFile content => Some content
                       | _ => None
                       end) out).

(** What a WELCOME reply carries. *)
Inductive Reply :=
| ReplyRecord (welcome : option User)
| ReplyPrototype (welcome : Prototype)
| ReplyString (welcome : string).

(** The replies sent on the socket [ws], oldest first. *)
Definition replies_to (ws : nat) (out : list Effect) : list Reply :=
  omap (fun e => match e with
                 | WsSend w welcome =>
                     if decide (w = ws) then Some (ReplyRecord welcome) else None
                 | WsSendPrototype w welcome =>
                     if decide (w = ws) then Some (ReplyPrototype welcome) else None
                 | WsSendString w welcome =>
                     if decide (w = ws) then Some (ReplyString welcome) else None
                 | _ => None
                 end) out.

(** A key that finds nothing on [Object.prototype], whatever the handlers
    have assigned there: it is neither [__proto__], nor one of the functions
    of [Object.prototype], nor one of the five names the handlers assign. *)
Definition ordinary_key (k : string) : bool :=
  negb (bool_decide (k = "__proto__")
        || bool_decide (k ∈ prototype_functions)
        || bool_decide (k ∈ ["username"; "region"; "timezone"; "lastConnected";
                             "lastPosition"])).

Definition is_close (e : Event) : bool :=
  match e with Close _ => true | _ => false end.

(** A HELLO message whose second piece is the value [v]. *)
Definition hello_from (v : JsVal) (e : Event) : bool :=
  match e with
  | Message _ msg _ =>
      bool_decide (command msg = Some "HELLO") && bool_decide (parts msg !! 1%nat = v)
  | _ => false
  end.

(** A POSITION message that carries [key]. *)
Definition position_for (key : string) (e : Event) : bool :=
  match e with
  | Message _ msg _ =>
      bool_decide (command msg = Some "POSITION") && bool_decide (key_of msg = key)
  | _ => false
  end.

(** [GET /events] for the response [res]. *)
Definition subscribes (res : nat) (e : Event) : bool :=
  match e with GetEvents r => bool_decide (r = res) | _ => false end.

(** A record as the HELLO branch builds it: its [steamId] indexes to its own
    key, and the two times and the position are set. *)
Definition record_ok (k : string) (u : User) : Prop :=
  toPropertyKey (steamId u) = k
  ∧ is_Some (firstConnected u)
  ∧ is_Some (lastConnected u)
  ∧ is_Some (lastPosition u).

(** A value that is falsy: [undefined] or the empty string. *)
Definition falsy (v : JsVal) : Prop := v = None ∨ v = Some "".

(** A string without the character [c]. *)
Definition free_of (c : ascii) (s : string) : Prop :=
  c ∉ list_ascii_of_string s.

(** ** [client.js] *)

(** What the client writes to its console. *)
Inductive ClientLine :=
| ClientConnected
| ClientMessage (data : Reply)
| ClientDisconnected.

Inductive ClientEffect :=
| ClientConsole (l : ClientLine)
| ClientSend (msg : string).

(** [ws.on('open', ...)]. *)
Definition client_on_open : list ClientEffect :=
  [ClientConsole ClientConnected; ClientSend "Hello from client!"].

(** [ws.on('message', ...)]: [data] is what a WELCOME reply carries. *)
Definition client_on_message (data : Reply) : list ClientEffect :=
  [ClientConsole (ClientMessage data)].

(** [ws.on('close', ...)]. *)
Definition client_on_close : list ClientEffect :=
  [ClientConsole ClientDisconnected].

(** The messages among the effects of the client. *)
Definition client_sent (out : list ClientEffect) : list string :=
  omap (fun e => match e with ClientSend msg => Some msg | _ => None end) out.

(** The client on the socket [ws] against the server in state [s]: the
    socket connects, the server receives what the open handler sends (at the
    times [nows]), and the client handles each reply.  The result is the
    state of the server, its effects, and the effects of the client. *)
Definition client_session (ws : nat) (nows : list string) (s : Server)
  : Server * list Effect * list ClientEffect :=
  let msgs := client_sent client_on_open in
  let events := Connection ws
                :: zip_with (fun msg now => Message ws msg now) msgs nows in
  let '(s', out) := run s events in
  (s', out, client_on_open ++ (replies_to ws out ≫= client_on_message)).

(** * Properties *)

(** ** The model on concrete inputs *)

Example split_hello :
  split "|" "HELLO|76561|Alice|EU|UTC+1" = ["HELLO"; "76561"; "Alice"; "EU"; "UTC+1"].
Proof. reflexivity. Qed.

Example split_empty_pieces : split "|" "a||" = ["a"; ""; ""].
Proof. reflexivity. Qed.

Example split_no_separator : split "|" "Hello from client!" = ["Hello from client!"].
Proof. reflexivity. Qed.

(** [0.1] is [0x1.999999999999ap-4]. *)
Example parseFloat_tenth :
  JSNumber.parseFloat (Some "0.1") = JSNumber.Finite false 7205759403792794 (-56).
Proof. vm_compute. reflexivity. Qed.

(** The largest finite number, and the first decimal that rounds past it. *)
Example parseFloat_max :
  JSNumber.parseFloat (Some "1.7976931348623157e308")
  = JSNumber.Finite false 9007199254740991 971
  ∧ JSNumber.parseFloat (Some "1.7976931348623159e308") = JSNumber.Infinity false.
Proof. vm_compute. done. Qed.

Example parseFloat_prefix :
  JSNumber.parseFloat (Some "  12.5abc") = JSNumber.Finite false 7036874417766400 (-49)
  ∧ JSNumber.parseFloat (Some ".") = JSNumber.NaN
  ∧ JSNumber.parseFloat None = JSNumber.NaN.
Proof. vm_compute. done. Qed.

(** [1.005] lies below the decimal it was read from, [8.345] above. *)
Example toFixed_rounds_the_double :
  JSNumber.toFixed 2 (JSNumber.parseFloat (Some "1.005")) = "1.00"
  ∧ JSNumber.toFixed 2 (JSNumber.parseFloat (Some "8.345")) = "8.35"
  ∧ JSNumber.toFixed 2 (JSNumber.parseFloat (Some "-0.001")) = "-0.00"
  ∧ JSNumber.toFixed 2 (JSNumber.parseFloat (Some "-0")) = "0.00".
Proof. vm_compute. done. Qed.

Example toFixed_large :
  JSNumber.toFixed 2 (JSNumber.parseFloat (Some "999999999999999900000"))
  = "999999999999999868928.00"
  ∧ JSNumber.toFixed 2 (JSNumber.parseFloat (Some "1e21")) = "1e+21"
  ∧ JSNumber.toFixed 2 (JSNumber.parseFloat (Some "123456789012345678901234567890"))
    = "1.2345678901234568e+29".
Proof. vm_compute. done. Qed.

(** ** The registry and the snapshot *)

Section Registry.

Implicit Types (s : Server) (u old : User) (k key : string).

Lemma elem_of_formatUsers s v :
  v ∈ formatUsers s ↔ ∃ k u, users s !! k = Some u ∧ v = formatUser s u.
Proof.
  unfold formatUsers. rewrite list_elem_of_fmap. split.
  - intros (u & -> & Hu). apply list_elem_of_fmap in Hu as ([k u'] & -> & Hku).
    apply elem_of_map_to_list in Hku. eauto.
  - intros (k & u & Hk & ->). exists u. split; [done|].
    apply list_elem_of_fmap. exists (k, u). split; [done|].
    by apply elem_of_map_to_list.
Qed.

(** [formatUsers] reads [users], [connectedUsers] and [Object.prototype]
    only. *)
Lemma formatUsers_ext s1 s2 :
  users s1 = users s2 → connectedUsers s1 = connectedUsers s2 →
  prototype s1 = prototype s2 →
  formatUsers s1 = formatUsers s2.
Proof.
  intros Hu Hc Hp. unfold formatUsers, formatUser, get_field.
  by rewrite Hu, Hc, Hp.
Qed.

(** A property a record has as its own is read from the record. *)
Lemma get_field_own s u name (own : JsVal) :
  name ∉ absent u → get_field s u name own = own.
Proof.
  intros Hown. unfold get_field. destruct own; [done|]. by rewrite decide_False.
Qed.

(** The handlers never assign [steamId] or [firstConnected] on
    [Object.prototype]. *)
Lemma get_field_steamId s u (own : JsVal) : get_field s u "steamId" own = own.
Proof. unfold get_field. destruct own; [done|]. by case_decide. Qed.

Lemma get_field_firstConnected s u (own : JsVal) :
  get_field s u "firstConnected" own = own.
Proof. unfold get_field. destruct own; [done|]. by case_decide. Qed.

(** ** [users[k]] *)

Lemma users_get_own s k u : users s !! k = Some u → users_get s k = PRecord u.
Proof. intros Hk. unfold users_get. by rewrite Hk. Qed.

Lemma users_get_record s k u : users_get s k = PRecord u → users s !! k = Some u.
Proof.
  unfold users_get. destruct (users s !! k); [congruence|].
  repeat case_decide; discriminate.
Qed.

(** A key that finds nothing on [Object.prototype] finds its record or
    nothing. *)
Lemma users_get_ordinary s k :
  ordinary_key k = true →
  users_get s k = match users s !! k with
                  | Some u => PRecord u
                  | None => PValue None
                  end.
Proof.
  unfold ordinary_key, users_get. intros Hk. apply negb_true_iff in Hk.
  apply orb_false_iff in Hk as [Hk Hnames]. apply orb_false_iff in Hk as [Hp Hf].
  apply bool_decide_eq_false in Hp, Hf, Hnames.
  destruct (users s !! k); [done|].
  rewrite !decide_False by done. unfold prototype_get.
  rewrite !not_elem_of_cons in Hnames.
  destruct Hnames as (? & ? & ? & ? & ? & _). by rewrite !decide_False.
Qed.

Lemma delete_each_fold (l : list JsVal) (c : gset JsVal) :
  foldr (fun steamId acc => acc ∖ {[steamId]}) c l = c ∖ list_to_set l.
Proof.
  induction l as [|x l IH]; simpl.
  - by rewrite difference_empty_L.
  - rewrite IH. apply set_eq. intros y.
    rewrite !elem_of_difference, elem_of_union, elem_of_singleton. tauto.
Qed.

Lemma delete_each_empty (c : gset JsVal) : delete_each c = ∅.
Proof.
  unfold delete_each. rewrite delete_each_fold, list_to_set_elements_L.
  apply difference_diag_L.
Qed.

(** A message that is neither HELLO nor POSITION is only logged. *)
Lemma unknown_command_logged s ws msg now :
  command msg ≠ Some "HELLO" → command msg ≠ Some "POSITION" →
  on_message ws msg now s = (s, [Console (LogUnknownCommand msg)]).
Proof.
  intros Hh Hp. unfold on_message. by rewrite !decide_False.
Qed.

Lemma on_message_hello s ws msg now :
  command msg = Some "HELLO" →
  on_message ws msg now s = hello ws (parts msg) now s.
Proof. intros H. unfold on_message. by rewrite decide_True. Qed.

Lemma on_message_position s ws msg now :
  command msg = Some "POSITION" →
  on_message ws msg now s = position (parts msg) s.
Proof.
  intros H. unfold on_message.
  rewrite decide_False by (rewrite H; discriminate).
  by rewrite decide_True.
Qed.

(** What a HELLO does to the registry. *)
Lemma hello_users s ws ps now :
  users (hello ws ps now s).1 =
  match users_get s (toPropertyKey (ps !! 1%nat)) with
  | PRecord old =>
      <[toPropertyKey (ps !! 1%nat) := returning_user old ps now]> (users s)
  | PValue v =>
      if truthy (PValue v) then users s
      else <[toPropertyKey (ps !! 1%nat) := new_user ps now]> (users s)
  | _ => users s
  end.
Proof.
  unfold hello. destruct (users_get s _) as [old| | |v]; try done.
  by destruct (truthy (PValue v)).
Qed.

Lemma position_users s ps :
  users (position ps s).1 =
  match users_get s (toPropertyKey (ps !! 1%nat)) with
  | PRecord old => <[toPropertyKey (ps !! 1%nat) := moved_user old ps]> (users s)
  | _ => users s
  end.
Proof.
  unfold position. destruct (users_get s _) as [old| | |v]; try done.
  by destruct (truthy (PValue v)).
Qed.

(** What a message does to the record of [k]: either it leaves the lookup
    as it was, or it stores one of the three records of the handlers. *)
Lemma hello_lookup s ws ps now k :
  users (hello ws ps now s).1 !! k = users s !! k
  ∨ (k = toPropertyKey (ps !! 1%nat)
     ∧ ((∃ old, users s !! k = Some old
                ∧ users (hello ws ps now s).1 !! k = Some (returning_user old ps now))
        ∨ (users s !! k = None
           ∧ users (hello ws ps now s).1 !! k = Some (new_user ps now)))).
Proof.
  rewrite hello_users.
  destruct (users_get s (toPropertyKey (ps !! 1%nat))) as [old| | |v] eqn:Hget;
    try by left.
  - apply users_get_record in Hget.
    destruct (decide (toPropertyKey (ps !! 1%nat) = k)) as [<-|Hne].
    + right. split; [done|]. left. exists old. by rewrite lookup_insert_eq.
    + left. by rewrite lookup_insert_ne.
  - destruct (truthy (PValue v)); [by left|].
    destruct (decide (toPropertyKey (ps !! 1%nat) = k)) as [<-|Hne].
    + right. split; [done|]. right. rewrite lookup_insert_eq. split; [|done].
      unfold users_get in Hget. by destruct (users s !! _).
    + left. by rewrite lookup_insert_ne.
Qed.

Lemma position_lookup s ps k :
  users (position ps s).1 !! k = users s !! k
  ∨ (k = toPropertyKey (ps !! 1%nat)
     ∧ ∃ old, users s !! k = Some old
              ∧ users (position ps s).1 !! k = Some (moved_user old ps)).
Proof.
  rewrite position_users.
  destruct (users_get s (toPropertyKey (ps !! 1%nat))) as [old| | |v] eqn:Hget;
    try by left.
  apply users_get_record in Hget.
  destruct (decide (toPropertyKey (ps !! 1%nat) = k)) as [<-|Hne].
  - right. split; [done|]. exists old. by rewrite lookup_insert_eq.
  - left. by rewrite lookup_insert_ne.
Qed.

(** No handler removes a record or touches its [firstConnected]. *)
Lemma step_firstConnected s e k u :
  users s !! k = Some u →
  ∃ u', users (step s e).1 !! k = Some u'
        ∧ firstConnected u' = firstConnected u.
Proof.
  intros Hk. destruct e as [ws|ws msg now|ws| |res|res]; simpl; eauto.
  unfold on_message. repeat case_decide; simpl; eauto.
  - destruct (hello_lookup s ws (parts msg) now k)
      as [->|(_ & [(old & Ho & ->)|[Hn _]])]; eauto; [|congruence].
    exists (returning_user old (parts msg) now). split; [done|]. simpl. congruence.
  - destruct (position_lookup s (parts msg) k) as [->|(_ & old & Ho & ->)]; eauto.
    exists (moved_user old (parts msg)). split; [done|]. simpl. congruence.
Qed.

Lemma run_cons s e es :
  run s (e :: es) = ((run (step s e).1 es).1, (step s e).2 ++ (run (step s e).1 es).2).
Proof.
  simpl. destruct (step s e) as [s1 out1]. simpl.
  by destruct (run s1 es) as [s2 out2].
Qed.

Lemma run_firstConnected es : ∀ s k u,
  users s !! k = Some u →
  ∃ u', users (run s es).1 !! k = Some u'
        ∧ firstConnected u' = firstConnected u.
Proof.
  induction es as [|e es IH]; intros s k u Hk.
  - simpl. eauto.
  - rewrite run_cons. simpl.
    destruct (step_firstConnected s e k u Hk) as (u1 & Hk1 & Hf1).
    destruct (IH _ _ _ Hk1) as (u2 & Hk2 & Hf2).
    exists u2. split; [done|congruence].
Qed.

End Registry.

(** ** What the snapshot holds *)

(** The entry of the snapshot for the record [u]: the name, or "(unknown)";
    the id, or "N/A"; the time of the first HELLO; whether the id is a member
    of [connectedUsers]; the position, or "N/A".  A property the record
    lacks is read from [Object.prototype]. *)
Lemma formatUser_fields (s : Server) (u : User) :
  formatUser s u
  = mkUserView (or_else (get_field s u "username" (username u)) "(unknown)")
               (or_else (steamId u) "N/A")
               (match firstConnected u with
                | Some EmptyString | None => JoinedNA
                | Some iso => LocaleString iso
                end)
               (bool_decide (steamId u ∈ connectedUsers s))
               (or_else (get_field s u "lastPosition" (lastPosition u)) "N/A").
Proof.
  unfold formatUser. by rewrite !get_field_steamId, get_field_firstConnected.
Qed.

Lemma formatUsers_length (s : Server) : length (formatUsers s) = size (users s).
Proof. unfold formatUsers. by rewrite !length_fmap, length_map_to_list. Qed.

(** ** Disconnection *)

(** C10: whatever socket closes, and whether or not a HELLO ever arrived on
    it, the close handler leaves [connectedUsers] empty, keeps the registry
    and the feeds, and publishes once: after the console line, every feed is
    written the one snapshot of the new state.  That snapshot has one entry
    for each record of the registry, with the record's name, id, joining
    time and position and with [connected] false, and nothing else. *)
Theorem C10_close_empties_presence (s : Server) (ws : nat) :
  let s' := (step s (Close ws)).1 in
  let out := (step s (Close ws)).2 in
  connectedUsers s' = ∅
  ∧ users s' = users s
  ∧ sseClients s' = sseClients s
  ∧ out = Console LogClientDisconnected :: broadcastUsers s'
  ∧ broadcastUsers s' = (fun res => SseWrite res (formatUsers s')) <$> sseClients s
  ∧ (∀ v, v ∈ formatUsers s' → view_connected v = false)
  ∧ length (formatUsers s') = size (users s)
  ∧ (∀ k u, users s !! k = Some u →
       mkUserView (or_else (get_field s u "username" (username u)) "(unknown)")
                  (or_else (steamId u) "N/A")
                  (match firstConnected u with
                   | Some EmptyString | None => JoinedNA
                   | Some iso => LocaleString iso
                   end)
                  false
                  (or_else (get_field s u "lastPosition" (lastPosition u)) "N/A")
       ∈ formatUsers s')
  ∧ (∀ v, v ∈ formatUsers s' → ∃ k u, users s !! k = Some u ∧ v = formatUser s' u).
Proof.
  cbn zeta. cbn [step on_close fst snd]. rewrite delete_each_empty.
  set (s' := set_connectedUsers ∅ (set_clients (clients s ∖ {[ws]}) s)).
  assert (Hoff : ∀ u, view_connected (formatUser s' u) = false).
  { intros u. simpl. apply bool_decide_eq_false_2, not_elem_of_empty. }
  split; [done|]. split; [done|]. split; [done|]. split; [done|]. split; [done|].
  split; [|split; [|split]].
  - intros v (k & u & _ & ->)%elem_of_formatUsers. apply Hoff.
  - by rewrite formatUsers_length.
  - intros k u Hk. apply elem_of_formatUsers. exists k, u. split; [done|].
    rewrite formatUser_fields. unfold get_field. subst s'.
    cbn [prototype connectedUsers set_connectedUsers set_clients].
    by rewrite bool_decide_eq_false_2 by apply not_elem_of_empty.
  - intros v (k & u & Hk & ->)%elem_of_formatUsers. by exists k, u.
Qed.

(** ** POSITION for a key without a record *)

(** A POSITION message is dropped when [users[steamId]] is falsy. *)
Lemma position_falsy (s : Server) (ws : nat) (msg now : string) :
  command msg = Some "POSITION" →
  truthy (users_get s (key_of msg)) = false →
  step s (Message ws msg now) = (s, []).
Proof.
  intros Hc Hk. simpl. rewrite on_message_position by done.
  unfold position. fold (key_of msg).
  destruct (users_get s (key_of msg)) as [old| | |v]; try discriminate.
  by rewrite Hk.
Qed.

(** For a key that finds nothing on [Object.prototype], that is when the key
    has no record. *)
Lemma position_unknown_key (s : Server) (ws : nat) (msg now : string) :
  command msg = Some "POSITION" →
  ordinary_key (key_of msg) = true →
  users s !! key_of msg = None →
  step s (Message ws msg now) = (s, []).
Proof.
  intros Hc Hord Hk. apply position_falsy; [done|].
  by rewrite users_get_ordinary, Hk.
Qed.

(** C3 at a concrete message: [constructor] has no record in the empty
    registry, yet [users["constructor"]] is the function every object
    inherits from [Object.prototype], so the guard of the POSITION branch
    passes: [users.json] is written and the feed is written a snapshot. *)
Theorem C3_position_for_inherited_name_is_published :
  let s := (run fresh [GetEvents 9]).1 in
  let msg := "POSITION|constructor|1|2|3" in
  command msg = Some "POSITION"
  ∧ key_of msg = "constructor"
  ∧ users s !! "constructor" = None
  ∧ users s = ∅
  ∧ (step s (Message 1 msg "T0")).2 = [WriteUsersFile ∅; SseWrite 9 []]
  ∧ users (step s (Message 1 msg "T0")).1 = ∅.
Proof. vm_compute. repeat split. Qed.

(** ** HELLO *)

(** C6: a HELLO for a key that has a record overwrites [username], [region],
    [timezone] and [lastConnected] of that record with the fields of the
    message and the current time; [firstConnected], [lastPosition] (and
    [steamId]) keep their values and so does the record of every other key.
    The registry is then written to [users.json], before the broadcast and
    the reply. *)
Theorem C6_hello_known_key_frame (s : Server) (ws : nat) (msg now : string) (old : User) :
  command msg = Some "HELLO" →
  users s !! key_of msg = Some old →
  let s' := (step s (Message ws msg now)).1 in
  let out := (step s (Message ws msg now)).2 in
  (∃ u, users s' !! key_of msg = Some u
        ∧ username u = parts msg !! 2%nat
        ∧ region u = parts msg !! 3%nat
        ∧ timezone u = parts msg !! 4%nat
        ∧ lastConnected u = Some now
        ∧ firstConnected u = firstConnected old
        ∧ lastPosition u = lastPosition old
        ∧ steamId u = steamId old)
  ∧ (∀ k, k ≠ key_of msg → users s' !! k = users s !! k)
  ∧ out = Console (LogReturningUser (parts msg !! 2%nat) (parts msg !! 1%nat))
          :: WriteUsersFile (users s')
          :: broadcastUsers s' ++ [WsSend ws (users s' !! key_of msg)].
Proof.
  intros Hc Hk. simpl. rewrite on_message_hello by done.
  unfold hello, welcome. fold (key_of msg).
  rewrite (users_get_own s _ _ Hk). cbn [fst snd].
  rewrite (users_get_own _ (key_of msg) (returning_user old (parts msg) now))
    by apply lookup_insert_eq.
  simpl. rewrite lookup_insert_eq. repeat split.
  - exists (returning_user old (parts msg) now). done.
  - intros k Hne. by rewrite lookup_insert_ne.
Qed.

Lemma C6_hello_known_key_frame_witness :
  let s := (run fresh [Message 1 "HELLO|76561|Alice|EU|UTC+1" "T0";
                       Message 1 "POSITION|76561|1.2345|-3|0" "T1"]).1 in
  ∃ u, users (step s (Message 2 "HELLO|76561|Alicia|US|UTC-5" "T2")).1 !! "76561"
       = Some u
       ∧ username u = Some "Alicia"
       ∧ lastConnected u = Some "T2"
       ∧ firstConnected u = Some "T0"
       ∧ lastPosition u = Some "1.23, -3.00, 0.00".
Proof.
  intros s.
  destruct (C6_hello_known_key_frame s 2 "HELLO|76561|Alicia|US|UTC-5" "T2"
              (mkUser (Some "76561") (Some "Alice") (Some "EU") (Some "UTC+1")
                      (Some "T0") (Some "T0") (Some "1.23, -3.00, 0.00")))
    as [(u & Hu & Hn & _ & _ & Hl & Hf & Hp & _) _].
  - reflexivity.
  - vm_compute. reflexivity.
  - exists u. repeat split; assumption.
Defined.

(** Events other than a HELLO for [k] do not create a record for [k]. *)
Lemma step_keeps_unknown (s : Server) (e : Event) (k : string) :
  hello_for k e = false →
  users s !! k = None →
  users (step s e).1 !! k = None.
Proof.
  intros He Hk. destruct e as [ws|ws msg now|ws| |res|res]; simpl; try done.
  unfold on_message. repeat case_decide; simpl; try done.
  - destruct (hello_lookup s ws (parts msg) now k)
      as [->|(Heq & _)]; [done|].
    simpl in He. unfold key_of in He.
    rewrite bool_decide_eq_true_2, bool_decide_eq_true_2 in He by done.
    discriminate.
  - destruct (position_lookup s (parts msg) k)
      as [->|(_ & old & Ho & _)]; [done|congruence].
Qed.

Lemma run_keeps_unknown (es : list Event) : ∀ (s : Server) (k : string),
  Forall (fun e => hello_for k e = false) es →
  users s !! k = None →
  users (run s es).1 !! k = None.
Proof.
  induction es as [|e es IH]; intros s k Hes Hk; [done|].
  rewrite run_cons. simpl. inversion Hes; subst.
  apply IH; [done|]. by apply step_keeps_unknown.
Qed.

(** A HELLO creates the record when [users[steamId]] is falsy. *)
Lemma hello_falsy (s : Server) (ws : nat) (msg now : string) :
  command msg = Some "HELLO" →
  truthy (users_get s (key_of msg)) = false →
  users (step s (Message ws msg now)).1 !! key_of msg
  = Some (new_user (parts msg) now)
  ∧ WsSend ws (Some (new_user (parts msg) now)) ∈ (step s (Message ws msg now)).2.
Proof.
  intros Hc Hk. simpl. rewrite on_message_hello by done.
  unfold hello, welcome. fold (key_of msg).
  destruct (users_get s (key_of msg)) as [old| | |v]; try discriminate.
  rewrite Hk. cbn [fst snd].
  rewrite (users_get_own _ (key_of msg) (new_user (parts msg) now))
    by apply lookup_insert_eq.
  simpl. rewrite lookup_insert_eq. split; [done|].
  rewrite !elem_of_cons, elem_of_app, list_elem_of_singleton. auto.
Qed.

(** The first HELLO for a key that finds nothing on [Object.prototype]
    creates its record. *)
Lemma hello_unknown_key (s : Server) (ws : nat) (msg now : string) :
  command msg = Some "HELLO" →
  ordinary_key (key_of msg) = true →
  users s !! key_of msg = None →
  users (step s (Message ws msg now)).1 !! key_of msg
  = Some (new_user (parts msg) now)
  ∧ WsSend ws (Some (new_user (parts msg) now)) ∈ (step s (Message ws msg now)).2.
Proof.
  intros Hc Hord Hk. apply hello_falsy; [done|].
  by rewrite users_get_ordinary, Hk.
Qed.

(** C2 at a concrete key: the first HELLO that carries [constructor], in an
    empty registry, finds the function every object inherits from
    [Object.prototype] under that key, so the branch for a returning user
    runs: the console says so, no record is created by it nor by the HELLO
    that follows, and there is no [firstConnected] to speak of; the reply
    carries no record. *)
Theorem C2_hello_for_inherited_name_creates_no_record :
  let msg := "HELLO|constructor|Eve|EU|UTC" in
  let tr := [Message 1 msg "T0"; Message 1 msg "T1"] in
  hello_for "constructor" (Message 1 msg "T0") = true
  ∧ users fresh !! "constructor" = None
  ∧ users (step fresh (Message 1 msg "T0")).1 !! "constructor" = None
  ∧ (step fresh (Message 1 msg "T0")).2
    = [Console (LogReturningUser (Some "Eve") (Some "constructor"));
       WriteUsersFile ∅; WsSend 1 None]
  ∧ users (run fresh tr).1 = ∅.
Proof. vm_compute. repeat split. Qed.

(** ** Start-up *)

(** C7 at a concrete key: when [users.json] exists and does not parse,
    start-up returns with the warning and an empty registry; the HELLO for
    [constructor] that follows creates no record: the console reports a
    returning user, the empty registry is written to [users.json], and the
    reply carries no record. *)
Theorem C7_hello_for_inherited_name_after_unparseable_store :
  let msg := "HELLO|constructor|Eve|EU|UTC" in
  startup true Thrown = Returned (fresh, [Console LogParseFailed])
  ∧ users fresh = ∅
  ∧ command msg = Some "HELLO"
  ∧ key_of msg = "constructor"
  ∧ users (step fresh (Message 1 msg "T0")).1 = ∅
  ∧ (step fresh (Message 1 msg "T0")).2
    = [Console (LogReturningUser (Some "Eve") (Some "constructor"));
       WriteUsersFile ∅; WsSend 1 None].
Proof. vm_compute. repeat split. Qed.

(** ** Observer feeds *)

Lemma written_to_app (res : nat) (out1 out2 : list Effect) :
  written_to res (out1 ++ out2) = written_to res out1 ++ written_to res out2.
Proof. apply omap_app. Qed.

(** C8: [GET /events] registers the response and writes it, after the
    headers, exactly one snapshot, that of the registry and presence set at
    that moment: one entry for each record of the registry, with the
    record's name, id, joining time and position and with [connected] true
    exactly when the record's id is a member of [connectedUsers], and
    nothing else.  In every run this snapshot is the first one the feed is
    written by the subscription, ahead of whatever later events publish to
    it. *)
Theorem C8_subscribe_snapshot_first (s : Server) (res : nat) (later : list Event) :
  let s1 := (step s (GetEvents res)).1 in
  (∃ data,
     (step s (GetEvents res)).2 = [SseHeaders res; SseWrite res data]
     ∧ written_to res (step s (GetEvents res)).2 = [data]
     ∧ written_to res (run s (GetEvents res :: later)).2
       = data :: written_to res (run s1 later).2
     ∧ data = formatUsers s
     ∧ length data = size (users s)
     ∧ (∀ k u, users s !! k = Some u →
          mkUserView (or_else (get_field s u "username" (username u)) "(unknown)")
                     (or_else (steamId u) "N/A")
                     (match firstConnected u with
                      | Some EmptyString | None => JoinedNA
                      | Some iso => LocaleString iso
                      end)
                     (bool_decide (steamId u ∈ connectedUsers s))
                     (or_else (get_field s u "lastPosition" (lastPosition u)) "N/A")
          ∈ data)
     ∧ (∀ v, v ∈ data → ∃ k u, users s !! k = Some u ∧ v = formatUser s u))
  ∧ res ∈ sseClients s1
  ∧ users s1 = users s ∧ connectedUsers s1 = connectedUsers s.
Proof.
  assert (Hout : written_to res (step s (GetEvents res)).2 = [formatUsers s]).
  { simpl. unfold written_to. simpl. by rewrite decide_True. }
  cbn zeta. split; [|repeat split].
  - exists (formatUsers s). split; [done|]. split; [exact Hout|].
    split; [rewrite run_cons; cbn [snd]; by rewrite written_to_app, Hout|].
    split; [done|]. split; [apply formatUsers_length|]. split.
    + intros k u Hk. apply elem_of_formatUsers. exists k, u. split; [done|].
      by rewrite formatUser_fields.
    + intros v Hv. by apply elem_of_formatUsers in Hv.
  - simpl. apply elem_of_app. right. by apply list_elem_of_singleton.
Qed.

(** ** Numbers written with [toFixed(2)] *)

Section Digits.

Import JSNumber.
Local Open Scope Z_scope.

Implicit Types (ds a b : list ascii) (c : ascii) (n acc : Z).

Lemma uint_digits (d : Decimal.uint) :
  Forall (fun c => is_digit c = true)
         (list_ascii_of_string (NilEmpty.string_of_uint d)).
Proof. induction d; simpl; constructor; done. Qed.

Lemma to_uint_not_nil (k : N) : N.to_uint k ≠ Decimal.Nil.
Proof.
  destruct k as [|p]; [discriminate|]. apply DecimalPos.Unsigned.to_uint_nonnil.
Qed.

Lemma decimal_digits_unfold n :
  decimal_digits n
  = list_ascii_of_string (NilEmpty.string_of_uint (N.to_uint (Z.to_N n))).
Proof.
  unfold decimal_digits, NilZero.string_of_uint.
  pose proof (to_uint_not_nil (Z.to_N n)) as Hnil.
  by destruct (N.to_uint (Z.to_N n)).
Qed.

Lemma decimal_digits_digits n :
  Forall (fun c => is_digit c = true) (decimal_digits n).
Proof. rewrite decimal_digits_unfold. apply uint_digits. Qed.

Lemma decimal_digits_nonempty n : decimal_digits n ≠ [].
Proof.
  rewrite decimal_digits_unfold.
  pose proof (to_uint_not_nil (Z.to_N n)) as Hnil.
  destruct (N.to_uint (Z.to_N n)); simpl; done.
Qed.

(** The value of a digit string, read most significant digit first. *)
Lemma digits_fold_uint (d : Decimal.uint) (p : positive) :
  fold_left (fun acc c => 10 * acc + digit_val c)
            (list_ascii_of_string (NilEmpty.string_of_uint d)) (Z.pos p)
  = Z.pos (Pos.of_uint_acc d p).
Proof.
  revert p. induction d; intros p; simpl; [done|..];
    rewrite <- IHd; f_equal; cbv [digit_val N_of_ascii N_of_digits]; lia.
Qed.

Lemma digits_value_uint (d : Decimal.uint) :
  digits_value (list_ascii_of_string (NilEmpty.string_of_uint d))
  = Z.of_N (Pos.of_uint d).
Proof.
  unfold digits_value. induction d; simpl; [done|exact IHd|..];
    apply (digits_fold_uint d).
Qed.

Lemma digits_value_decimal_digits n : 0 ≤ n → digits_value (decimal_digits n) = n.
Proof.
  intros Hn. rewrite decimal_digits_unfold, digits_value_uint.
  change (Pos.of_uint ?d) with (N.of_uint d).
  rewrite DecimalN.Unsigned.of_to. lia.
Qed.

Lemma digits_fold_app b : ∀ acc,
  fold_left (fun acc c => 10 * acc + digit_val c) b acc
  = acc * 10 ^ Z.of_nat (length b)
    + fold_left (fun acc c => 10 * acc + digit_val c) b 0.
Proof.
  induction b as [|c b IH]; intros acc.
  - simpl. lia.
  - cbn [fold_left length]. rewrite IH, (IH (10 * 0 + digit_val c)).
    rewrite Nat2Z.inj_succ, Z.pow_succ_r by lia. ring.
Qed.

Lemma digits_value_app a b :
  digits_value (a ++ b)
  = digits_value a * 10 ^ Z.of_nat (length b) + digits_value b.
Proof.
  unfold digits_value. rewrite fold_left_app. apply digits_fold_app.
Qed.

Lemma digits_value_zeros (k : nat) ds :
  digits_value (repeat "0"%char k ++ ds) = digits_value ds.
Proof.
  unfold digits_value. rewrite fold_left_app. f_equal.
  induction k as [|k IH]; [done|exact IH].
Qed.

Lemma digit_not_minus c : is_digit c = true → Ascii.eqb c "-" = false.
Proof.
  intros Hc. destruct (Ascii.eqb_spec c "-") as [->|]; [|done].
  discriminate Hc.
Qed.

Lemma append_nil (s : string) : ("" ++ s)%string = s.
Proof. done. Qed.

Lemma append_cons c (s t : string) :
  (String c s ++ t)%string = String c (s ++ t)%string.
Proof. done. Qed.

Lemma span_digits_point ds (r : string) :
  Forall (fun c => is_digit c = true) ds →
  span_digits (string_of_list_ascii ds ++ String "." r)%string
  = (ds, String "." r).
Proof.
  induction 1 as [|c ds Hc _ IH]; simpl; [done|].
  by rewrite Hc, IH.
Qed.

(** A sign, at least one digit, a point and two digits read back as the
    sign and the value of the digits. *)
Lemma read_fixed2_intro (neg : bool) a (d1 d2 : ascii) :
  a ≠ [] →
  Forall (fun c => is_digit c = true) a →
  is_digit d1 = true → is_digit d2 = true →
  read_fixed2
    ((if neg then "-" else "")
       ++ string_of_list_ascii a
       ++ String "." (string_of_list_ascii [d1; d2]))%string
  = Some (neg, digits_value (a ++ [d1; d2])).
Proof.
  intros Ha Hd H1 H2.
  assert (Hbody : span_digits (string_of_list_ascii a
                               ++ String "." (string_of_list_ascii [d1; d2]))%string
                  = (a, String "." (String d1 (String d2 EmptyString)))).
  { by apply span_digits_point. }
  unfold read_fixed2. destruct neg.
  - rewrite append_cons, append_nil. rewrite Ascii.eqb_refl.
    rewrite Hbody. destruct a; [done|]. by rewrite H1, H2.
  - rewrite append_nil.
    destruct a as [|c a']; [done|]. cbn [string_of_list_ascii] in *.
    rewrite append_cons in *.
    inversion Hd; subst. rewrite digit_not_minus by done.
    rewrite Hbody. by rewrite H1, H2.
Qed.

Lemma scaled_nearest_nonneg (f m e : Z) :
  0 ≤ f → 0 ≤ m → 0 ≤ scaled_nearest f m e.
Proof.
  intros Hf Hm. unfold scaled_nearest.
  destruct (Z.leb_spec 0 e).
  - pose proof (Z.pow_nonneg 2 e). pose proof (Z.pow_nonneg 10 f). nia.
  - assert (0 < 2 ^ (- e)) by (apply Z.pow_pos_nonneg; lia).
    pose proof (Z.pow_nonneg 10 f).
    apply Z.div_pos; nia.
Qed.

(** [scaled_nearest 2 m e] is the number of hundredths nearest to
    [m * 2^e]: exactly [100 * m * 2^e] when that is an integer, and
    otherwise within half a hundredth, the half included above. *)
Lemma scaled_nearest_hundredths (m e : Z) :
  (0 ≤ e → scaled_nearest 2 m e = m * 2 ^ e * 100)
  ∧ (e < 0 →
     - 2 ^ (- e) < 2 * (scaled_nearest 2 m e * 2 ^ (- e) - 100 * m) ≤ 2 ^ (- e)).
Proof.
  unfold scaled_nearest. split; intros He.
  - destruct (Z.leb_spec 0 e); [done|lia].
  - destruct (Z.leb_spec 0 e); [lia|].
    assert (Hd : 0 < 2 ^ (- e)) by (apply Z.pow_pos_nonneg; lia).
    set (D := 2 ^ (- e)) in *.
    change (10 ^ 2) with 100.
    pose proof (Z.div_mod (2 * m * 100 + D) (2 * D)) as Hdm.
    pose proof (Z.mod_pos_bound (2 * m * 100 + D) (2 * D)) as Hmod.
    lia.
Qed.

(** Below [10^21], what [toFixed(2)] writes reads back as the sign and the
    nearest number of hundredths. *)
Lemma read_toFixed (x : Number) :
  below_1e21 x = true → read_fixed2 (toFixed 2 x) = hundredths x.
Proof.
  destruct x as [| |neg m e]; simpl; try discriminate.
  intros Hlt. apply negb_true_iff in Hlt. rewrite Hlt.
  change (Z.of_nat 2) with 2.
  set (n := scaled_nearest 2 (Z.of_N m) e).
  assert (Hn : 0 ≤ n) by (apply scaled_nearest_nonneg; lia).
  set (ds := if (length (decimal_digits n) <=? 2)%nat then _ else _).
  assert (Hds : Forall (fun c => is_digit c = true) ds).
  { subst ds. case_match; [|apply decimal_digits_digits].
    apply Forall_app. split; [|apply decimal_digits_digits].
    apply Forall_forall. by intros c ->%list_elem_of_In%repeat_spec. }
  assert (Hval : digits_value ds = n).
  { subst ds. case_match; [rewrite digits_value_zeros|];
      by apply digits_value_decimal_digits. }
  assert (Hlen : (3 <= length ds)%nat).
  { subst ds. pose proof (decimal_digits_nonempty n) as Hne.
    destruct (Nat.leb_spec (length (decimal_digits n)) 2).
    - rewrite length_app, repeat_length.
      destruct (decimal_digits n); [done|]. simpl in *. lia.
    - lia. }
  pose proof (take_drop (length ds - 2) ds) as Hsplit.
  destruct (drop (length ds - 2) ds) as [|d1 [|d2 [|d3 tl]]] eqn:Hdrop;
    pose proof (f_equal length Hdrop) as Hl;
    rewrite length_drop in Hl; simpl in Hl; try lia.
  assert (Hd12 : Forall (fun c => is_digit c = true) [d1; d2]).
  { rewrite <- Hdrop. by apply Forall_drop. }
  inversion Hd12 as [|? ? H1 Hd2]; subst. inversion Hd2 as [|? ? H2 _]; subst.
  rewrite (read_fixed2_intro (neg && (0 <? Z.of_N m))); try done.
  - by rewrite Hsplit, Hval.
  - intros Htake. pose proof (f_equal length Htake) as Hl'.
    rewrite length_take in Hl'. simpl in Hl'. lia.
  - by apply Forall_take.
Qed.

(** Below [10^21], [toFixed(2)] writes exactly two fraction digits. *)
Lemma toFixed_two_fraction_digits (x : Number) :
  below_1e21 x = true → two_fraction_digits (toFixed 2 x) = true.
Proof.
  intros Hx. unfold two_fraction_digits. rewrite (read_toFixed x Hx).
  by destruct x.
Qed.

Lemma toFixed_written_fixed2 (x : Number) :
  below_1e21 x = true → written_fixed2 x (toFixed 2 x).
Proof.
  intros Hx. split; [by apply toFixed_two_fraction_digits|by apply read_toFixed].
Qed.

End Digits.

(** ** POSITION for a key with a record *)

Lemma position_known_key (s : Server) (ws : nat) (msg now : string) (old : User) :
  command msg = Some "POSITION" →
  users s !! key_of msg = Some old →
  let s' := set_users (<[key_of msg := moved_user old (parts msg)]> (users s)) s in
  step s (Message ws msg now) = (s', WriteUsersFile (users s') :: broadcastUsers s').
Proof.
  intros Hc Hk. simpl. rewrite on_message_position by done.
  unfold position. fold (key_of msg). by rewrite (users_get_own s _ _ Hk).
Qed.

(** No message handler touches [wss.clients]. *)
Lemma on_message_clients (s : Server) (ws : nat) (msg now : string) :
  clients (on_message ws msg now s).1 = clients s.
Proof.
  unfold on_message, hello, position. repeat case_decide; try done.
  - destruct (users_get s _) as [old| | |v]; try done.
    by destruct (truthy (PValue v)).
  - destruct (users_get s _) as [old| | |v]; try done.
    by destruct (truthy (PValue v)).
Qed.

Lemma or_else_position (x y z : JsVal) (dflt : string) :
  or_else (Some (position_string x y z)) dflt = position_string x y z.
Proof.
  unfold position_string.
  destruct (JSNumber.toFixed 2 (JSNumber.parseFloat x)); done.
Qed.

(** C9, as the code has it: a POSITION message for a key that has a record,
    with coordinates that [parseFloat] reads as numbers of magnitude below
    [10^21], sets [lastPosition] of that record to the three numbers, each
    written with exactly two fraction digits (the nearest number of
    hundredths, [scaled_nearest_hundredths]), joined by a comma and a space;
    the registry is saved and every feed is written the snapshot of the new
    state, whose entry for the record shows the new position.  (The
    coordinates 1.2345, -3 and 0 give "1.23, -3.00, 0.00", see the
    witness.) *)
Theorem C9_position_two_fraction_digits
    (s : Server) (ws : nat) (msg now : string) (old : User) :
  command msg = Some "POSITION" →
  users s !! key_of msg = Some old →
  below_1e21 (JSNumber.parseFloat (parts msg !! 2%nat)) = true →
  below_1e21 (JSNumber.parseFloat (parts msg !! 3%nat)) = true →
  below_1e21 (JSNumber.parseFloat (parts msg !! 4%nat)) = true →
  let s' := (step s (Message ws msg now)).1 in
  let out := (step s (Message ws msg now)).2 in
  let fx := JSNumber.toFixed 2 (JSNumber.parseFloat (parts msg !! 2%nat)) in
  let fy := JSNumber.toFixed 2 (JSNumber.parseFloat (parts msg !! 3%nat)) in
  let fz := JSNumber.toFixed 2 (JSNumber.parseFloat (parts msg !! 4%nat)) in
  ∃ u,
    written_fixed2 (JSNumber.parseFloat (parts msg !! 2%nat)) fx
    ∧ written_fixed2 (JSNumber.parseFloat (parts msg !! 3%nat)) fy
    ∧ written_fixed2 (JSNumber.parseFloat (parts msg !! 4%nat)) fz
    ∧ users s' !! key_of msg = Some u
    ∧ lastPosition u = Some (fx +:+ ", " +:+ fy +:+ ", " +:+ fz)
    ∧ out = WriteUsersFile (users s') :: broadcastUsers s'
    ∧ broadcastUsers s' = (fun res => SseWrite res (formatUsers s')) <$> sseClients s
    ∧ formatUser s' u ∈ formatUsers s'
    ∧ view_lastPosition (formatUser s' u) = fx +:+ ", " +:+ fy +:+ ", " +:+ fz.
Proof.
  intros Hc Hk Hx Hy Hz.
  rewrite (position_known_key s ws msg now old Hc Hk). cbn [fst snd].
  exists (moved_user old (parts msg)).
  do 3 (split; [by apply toFixed_written_fixed2|]).
  split; [apply lookup_insert_eq|].
  split; [reflexivity|].
  split; [reflexivity|].
  split; [reflexivity|].
  split.
  - apply elem_of_formatUsers. eexists _, _. split; [apply lookup_insert_eq|done].
  - cbn [formatUser view_lastPosition moved_user lastPosition].
    apply or_else_position.
Qed.

Lemma C9_position_two_fraction_digits_witness :
  let s := (run fresh [Message 1 "HELLO|76561|Alice|EU|UTC+1" "T0"]).1 in
  ∃ u, users (step s (Message 1 "POSITION|76561|1.2345|-3|0" "T1")).1 !! "76561"
       = Some u
       ∧ lastPosition u = Some "1.23, -3.00, 0.00".
Proof.
  intros s.
  destruct (C9_position_two_fraction_digits s 1 "POSITION|76561|1.2345|-3|0" "T1"
              (mkUser (Some "76561") (Some "Alice") (Some "EU") (Some "UTC+1")
                      (Some "T0") (Some "T0") (Some "N/A")))
    as (u & _ & _ & _ & Hu & Hp & _).
  - reflexivity.
  - vm_compute. reflexivity.
  - vm_compute. reflexivity.
  - vm_compute. reflexivity.
  - vm_compute. reflexivity.
  - exists u. split; [exact Hu|]. vm_compute in Hp. exact Hp.
Defined.

(** C9 as the specification words it fails for a coordinate of [10^21] or
    more: [toFixed(2)] then writes the exponential form. *)
Lemma C9_counterexample_large_coordinate :
  let s := (run fresh [Message 1 "HELLO|76561|Alice|EU|UTC+1" "T0"]).1 in
  let msg := "POSITION|76561|1000000000000000000000|0|0" in
  command msg = Some "POSITION"
  ∧ JSNumber.decimal_numeral "1000000000000000000000" = true
  ∧ JSNumber.decimal_numeral "0" = true
  ∧ users s !! "76561"
    = Some (mkUser (Some "76561") (Some "Alice") (Some "EU") (Some "UTC+1")
                   (Some "T0") (Some "T0") (Some "N/A"))
  ∧ users (step s (Message 1 msg "T1")).1 !! "76561"
    = Some (mkUser (Some "76561") (Some "Alice") (Some "EU") (Some "UTC+1")
                   (Some "T0") (Some "T0") (Some "1e+21, 0.00, 0.00"))
  ∧ JSNumber.toFixed 2 (JSNumber.parseFloat (Some "1000000000000000000000"))
    = "1e+21"
  ∧ JSNumber.two_fraction_digits "1e+21" = false.
Proof. vm_compute. repeat split. Qed.

(** ** Messages the specification rejects *)

(** C5 as the specification words it fails: a POSITION message whose
    coordinates are not numbers is applied to the record of a known key. *)
Lemma C5_counterexample_bad_coordinates :
  let s := (run fresh [Connection 1; Message 1 "HELLO|76561|Alice|EU|UTC+1" "T0"]).1 in
  let msg := "POSITION|76561|abc||" in
  let s' := (step s (Message 1 msg "T1")).1 in
  JSNumber.decimal_numeral "abc" = false
  ∧ JSNumber.decimal_numeral "" = false
  ∧ users s !! "76561"
    = Some (mkUser (Some "76561") (Some "Alice") (Some "EU") (Some "UTC+1")
                   (Some "T0") (Some "T0") (Some "N/A"))
  ∧ users s' !! "76561"
    = Some (mkUser (Some "76561") (Some "Alice") (Some "EU") (Some "UTC+1")
                   (Some "T0") (Some "T0") (Some "NaN, NaN, NaN"))
  ∧ users s' ≠ users s
  ∧ (step s (Message 1 msg "T1")).2 = [WriteUsersFile (users s')].
Proof.
  vm_compute. repeat split. intros H. discriminate H.
Qed.

(** C5, as the code has it: no message closes the socket it arrives on; a
    message whose command is neither HELLO nor POSITION changes nothing and
    is only logged; the coordinates of a POSITION message are never checked:
    for a key that has a record, coordinates that do not read as numbers are
    stored as "NaN, NaN, NaN", and the registry is saved and published. *)
Theorem C5_malformed_message_handling
    (s : Server) (ws : nat) (msg now : string) :
  ws ∈ clients s →
  let s' := (step s (Message ws msg now)).1 in
  let out := (step s (Message ws msg now)).2 in
  ws ∈ clients s'
  ∧ (command msg ≠ Some "HELLO" → command msg ≠ Some "POSITION" →
     s' = s ∧ out = [Console (LogUnknownCommand msg)])
  ∧ (command msg = Some "POSITION" →
     JSNumber.parseFloat (parts msg !! 2%nat) = JSNumber.NaN →
     JSNumber.parseFloat (parts msg !! 3%nat) = JSNumber.NaN →
     JSNumber.parseFloat (parts msg !! 4%nat) = JSNumber.NaN →
     ∀ old, users s !! key_of msg = Some old →
       ∃ u, users s' !! key_of msg = Some u
            ∧ lastPosition u = Some "NaN, NaN, NaN"
            ∧ out = WriteUsersFile (users s') :: broadcastUsers s').
Proof.
  intros Hws. cbn zeta. split; [|split].
  - simpl. by rewrite on_message_clients.
  - intros Hh Hp. simpl. by rewrite unknown_command_logged.
  - intros Hc Hx Hy Hz old Hk.
    rewrite (position_known_key s ws msg now old Hc Hk). cbn [fst snd].
    exists (moved_user old (parts msg)).
    split; [apply lookup_insert_eq|]. split; [|reflexivity].
    unfold moved_user, position_string. cbn [lastPosition].
    by rewrite Hx, Hy, Hz.
Qed.

Lemma C5_malformed_message_handling_witness :
  let s := (run fresh [Connection 1; Message 1 "HELLO|76561|Alice|EU|UTC+1" "T0"]).1 in
  step s (Message 1 "MOVE|76561|1|2|3" "T1")
  = (s, [Console (LogUnknownCommand "MOVE|76561|1|2|3")])
  ∧ ∃ u, users (step s (Message 1 "POSITION|76561|abc||" "T1")).1 !! "76561" = Some u
         ∧ lastPosition u = Some "NaN, NaN, NaN".
Proof.
  intros s.
  assert (Hws : 1 ∈ clients s).
  { apply (bool_decide_unpack _). vm_compute. exact I. }
  split.
  - destruct (C5_malformed_message_handling s 1 "MOVE|76561|1|2|3" "T1" Hws)
      as (_ & Hu & _).
    destruct Hu as [Hs Ho]; [discriminate|discriminate|].
    apply injective_projections; [exact Hs|exact Ho].
  - destruct (C5_malformed_message_handling s 1 "POSITION|76561|abc||" "T1" Hws)
      as (_ & _ & Hp).
    destruct (Hp eq_refl eq_refl eq_refl eq_refl
                (mkUser (Some "76561") (Some "Alice") (Some "EU") (Some "UTC+1")
                        (Some "T0") (Some "T0") (Some "N/A")))
      as (u & Hu & Hl & _).
    + vm_compute. reflexivity.
    + exists u. split; [exact Hu|exact Hl].
Defined.

(** C4 as the specification words it fails: on a socket that has sent no
    HELLO, a POSITION message for a known key is applied, saved and
    published. *)
Lemma C4_counterexample_unidentified_position :
  let tr := [Connection 1; Message 1 "HELLO|76561|Alice|EU|UTC+1" "T0";
             GetEvents 9; Connection 2] in
  let s := (run fresh tr).1 in
  let msg := "POSITION|76561|1|2|3" in
  let s' := (step s (Message 2 msg "T1")).1 in
  spec_identified tr 2 = false
  ∧ command msg ≠ Some "HELLO"
  ∧ users s !! "76561"
    = Some (mkUser (Some "76561") (Some "Alice") (Some "EU") (Some "UTC+1")
                   (Some "T0") (Some "T0") (Some "N/A"))
  ∧ users s' !! "76561"
    = Some (mkUser (Some "76561") (Some "Alice") (Some "EU") (Some "UTC+1")
                   (Some "T0") (Some "T0") (Some "1.00, 2.00, 3.00"))
  ∧ users s' ≠ users s
  ∧ (step s (Message 2 msg "T1")).2
    = [WriteUsersFile (users s'); SseWrite 9 (formatUsers s')].
Proof.
  vm_compute. repeat split; intros H; discriminate H.
Qed.

(** C4, as the code has it: the handler keeps no session state, so a message
    is treated the same whether or not a HELLO arrived on its socket before.
    After any run, on any open socket, a message whose command is neither
    HELLO nor POSITION is only logged: the socket stays open, the state is
    the state before, and nothing is saved or published.  A POSITION message
    for a key that has a record is applied, saved and published on every
    socket. *)
Theorem C4_only_unknown_commands_rejected
    (s0 : Server) (tr : list Event) (ws : nat) (msg now : string) :
  let s := (run s0 tr).1 in
  ws ∈ clients s →
  let s' := (step s (Message ws msg now)).1 in
  let out := (step s (Message ws msg now)).2 in
  ws ∈ clients s'
  ∧ (command msg ≠ Some "HELLO" → command msg ≠ Some "POSITION" →
     s' = s ∧ out = [Console (LogUnknownCommand msg)])
  ∧ (command msg = Some "POSITION" →
     ∀ old, users s !! key_of msg = Some old →
       users s' = <[key_of msg := moved_user old (parts msg)]> (users s)
       ∧ connectedUsers s' = connectedUsers s
       ∧ out = WriteUsersFile (users s') :: broadcastUsers s').
Proof.
  intros s Hws. cbn zeta. split; [|split].
  - simpl. by rewrite on_message_clients.
  - intros Hh Hp. simpl. by rewrite unknown_command_logged.
  - intros Hc old Hk.
    by rewrite (position_known_key s ws msg now old Hc Hk).
Qed.

Lemma C4_only_unknown_commands_rejected_witness :
  let tr := [Connection 1; Message 1 "HELLO|76561|Alice|EU|UTC+1" "T0";
             Connection 2] in
  let s := (run fresh tr).1 in
  spec_identified tr 2 = false
  ∧ step s (Message 2 "Hello from client!" "T1")
    = (s, [Console (LogUnknownCommand "Hello from client!")]).
Proof.
  intros tr s. split; [reflexivity|].
  destruct (C4_only_unknown_commands_rejected fresh tr 2 "Hello from client!" "T1")
    as (_ & Hu & _).
  - apply (bool_decide_unpack _). vm_compute. exact I.
  - destruct Hu as [Hs Ho]; [discriminate|discriminate|].
    apply injective_projections; [exact Hs|exact Ho].
Defined.

(** ** Two sessions, one close *)

(** C1 at a concrete run: sockets 1 and 2 both say HELLO for the key 76561
    and socket 3 for the key 4242; then socket 1 closes.  Sockets 2 and 3 are
    still open, yet the snapshot written to the feed by that close shows both
    keys as not connected: the close handler deletes every member of
    [connectedUsers], not the key of the socket that closed. *)
Theorem C1_close_of_one_session_clears_all :
  let tr := [Connection 1; Message 1 "HELLO|76561|Alice|EU|UTC+1" "T0";
             Connection 2; Message 2 "HELLO|76561|Alice|EU|UTC+1" "T1";
             Connection 3; Message 3 "HELLO|4242|Bob|US|UTC-5" "T2";
             GetEvents 9] in
  let before := (run fresh tr).1 in
  let after := (step before (Close 1)).1 in
  bool_decide (2 ∈ clients after) = true
  ∧ bool_decide (3 ∈ clients after) = true
  ∧ spec_identified tr 2 = true
  ∧ Forall (fun v => view_connected v = true) (formatUsers before)
  ∧ length (formatUsers before) = 2%nat
  ∧ written_to 9 (step before (Close 1)).2 = [formatUsers after]
  ∧ Forall (fun v => view_connected v = false) (formatUsers after)
  ∧ view_connected
      <$> filter (fun v => view_steamId v = "76561") (formatUsers after)
    = [false].
Proof.
  vm_compute. repeat split; repeat constructor.
Qed.

(** * Further properties of the handlers *)

(** ** Runs *)

Lemma run_app (es1 es2 : list Event) : ∀ s : Server,
  run s (es1 ++ es2)
  = ((run (run s es1).1 es2).1, (run s es1).2 ++ (run (run s es1).1 es2).2).
Proof.
  induction es1 as [|e es1 IH]; intros s.
  - simpl. by destruct (run s es2).
  - rewrite <- app_comm_cons, !run_cons, IH. cbn [fst snd].
    by rewrite app_assoc.
Qed.

Lemma run_snoc (s : Server) (es : list Event) (e : Event) :
  run s (es ++ [e])
  = ((step (run s es).1 e).1, (run s es).2 ++ (step (run s es).1 e).2).
Proof.
  rewrite run_app, run_cons. simpl. by rewrite app_nil_r.
Qed.

(** ** The shape of what the message handlers do *)

(** A HELLO writes a console line, the registry, the snapshot to each feed
    and the reply, in this order, whatever [users[steamId]] is. *)
Lemma hello_out (s : Server) (ws : nat) (ps : list string) (now : string) :
  ∃ line,
    (hello ws ps now s).2
    = Console line
      :: WriteUsersFile (users (hello ws ps now s).1)
      :: broadcastUsers (hello ws ps now s).1
      ++ [welcome ws (hello ws ps now s).1 (toPropertyKey (ps !! 1%nat))].
Proof.
  unfold hello. destruct (users_get s _) as [old| | |v]; try (by eexists).
  destruct (truthy (PValue v)); by eexists.
Qed.

Lemma hello_frame (s : Server) (ws : nat) (ps : list string) (now : string) :
  connectedUsers (hello ws ps now s).1 = {[ps !! 1%nat]} ∪ connectedUsers s
  ∧ sseClients (hello ws ps now s).1 = sseClients s
  ∧ clients (hello ws ps now s).1 = clients s.
Proof.
  unfold hello. destruct (users_get s _) as [old| | |v]; try done.
  by destruct (truthy (PValue v)).
Qed.

(** A POSITION either does nothing at all, or writes the registry and then
    the snapshot to each feed. *)
Lemma position_out (s : Server) (ps : list string) :
  ((position ps s).1 = s ∧ (position ps s).2 = []
   ∧ truthy (users_get s (toPropertyKey (ps !! 1%nat))) = false)
  ∨ ((position ps s).2
     = WriteUsersFile (users (position ps s).1) :: broadcastUsers (position ps s).1
     ∧ truthy (users_get s (toPropertyKey (ps !! 1%nat))) = true).
Proof.
  unfold position. destruct (users_get s _) as [old| | |v]; try (by right).
  destruct (truthy (PValue v)); [by right|by left].
Qed.

Lemma position_frame (s : Server) (ps : list string) :
  connectedUsers (position ps s).1 = connectedUsers s
  ∧ sseClients (position ps s).1 = sseClients s
  ∧ clients (position ps s).1 = clients s.
Proof.
  unfold position. destruct (users_get s _) as [old| | |v]; try done.
  by destruct (truthy (PValue v)).
Qed.

(** The reply is neither a write of the file nor a write to a feed. *)
Lemma welcome_is_reply (ws : nat) (s : Server) (key : string) :
  (∃ r, welcome ws s key = WsSend ws r)
  ∨ (∃ r, welcome ws s key = WsSendPrototype ws r)
  ∨ (∃ r, welcome ws s key = WsSendString ws r).
Proof.
  unfold welcome. destruct (users_get s key) as [u| | |[v|]]; eauto.
Qed.

(** ** [users.json] follows the registry *)

Lemma last_saved_app (out1 out2 : list Effect) :
  last_saved (out1 ++ out2)
  = match last_saved out2 with
    | Some content => Some content
    | None => last_saved out1
    end.
Proof.
  unfold last_saved. rewrite omap_app.
  destruct (omap _ out2) as [|c l] using rev_ind.
  - by rewrite app_nil_r.
  - by rewrite app_assoc, !last_snoc.
Qed.

Lemma last_saved_broadcast (s : Server) : last_saved (broadcastUsers s) = None.
Proof.
  unfold last_saved, broadcastUsers.
  by induction (sseClients s) as [|res l IH].
Qed.

Lemma last_saved_welcome (ws : nat) (s : Server) (key : string) :
  last_saved [welcome ws s key] = None.
Proof.
  by destruct (welcome_is_reply ws s key) as [[r ->]|[[r ->]|[r ->]]].
Qed.

(** One event either writes the registry it leaves behind, last, or writes
    nothing and leaves the registry as it was. *)
Lemma step_saved (s : Server) (e : Event) :
  match last_saved (step s e).2 with
  | Some content => content = users (step s e).1
  | None => users (step s e).1 = users s
  end.
Proof.
  destruct e as [ws|ws msg now|ws| |res|res]; cbn -[last_saved broadcastUsers]; try done.
  - unfold on_message. repeat case_decide; cbn -[last_saved broadcastUsers]; try done.
    + destruct (hello_out s ws (parts msg) now) as [line ->].
      change (?a :: WriteUsersFile ?c :: ?l ++ ?r)
        with ([a; WriteUsersFile c] ++ l ++ r).
      by rewrite !last_saved_app, last_saved_welcome, last_saved_broadcast.
    + destruct (position_out s (parts msg)) as [(-> & -> & _)|[-> _]]; [done|].
      change (WriteUsersFile ?c :: ?l) with ([WriteUsersFile c] ++ l).
      by rewrite last_saved_app, last_saved_broadcast.
  - change (Console ?c :: ?l) with ([Console c] ++ l).
    by rewrite last_saved_app, last_saved_broadcast.
Qed.

(** X2: after any run, the content last written to [users.json] is the
    registry in memory; when the run wrote nothing, the registry is the one
    the run started from. *)
Theorem users_file_follows_registry (s : Server) (es : list Event) :
  match last_saved (run s es).2 with
  | Some content => content = users (run s es).1
  | None => users (run s es).1 = users s
  end.
Proof.
  revert s. induction es as [|e es IH]; intros s; [done|].
  rewrite run_cons. cbn [fst snd]. rewrite last_saved_app.
  specialize (IH (step s e).1). pose proof (step_saved s e) as Hstep.
  destruct (last_saved (run (step s e).1 es).2); [done|].
  rewrite IH. by destruct (last_saved (step s e).2).
Qed.

(** X17: [users.json] is written only by a HELLO message or by a POSITION
    message for which [users[steamId]] is truthy (a record, or something
    inherited from [Object.prototype]), and what is written is the registry
    the handler leaves behind. *)
Theorem file_written_only_by_hello_and_position
    (s : Server) (e : Event) (content : gmap string User) :
  WriteUsersFile content ∈ (step s e).2 →
  content = users (step s e).1
  ∧ ∃ ws msg now,
      e = Message ws msg now
      ∧ (command msg = Some "HELLO"
         ∨ command msg = Some "POSITION"
           ∧ truthy (users_get s (key_of msg)) = true).
Proof.
  assert (Hb : ∀ s', WriteUsersFile content ∉ broadcastUsers s').
  { intros s'. unfold broadcastUsers.
    intros (res & Heq & _)%list_elem_of_fmap. discriminate. }
  destruct e as [ws|ws msg now|ws| |res|res]; simpl.
  - intros Hin%list_elem_of_singleton. discriminate.
  - unfold on_message. repeat case_decide.
    + destruct (hello_out s ws (parts msg) now) as [line ->].
      rewrite !elem_of_cons, elem_of_app, list_elem_of_singleton.
      intros [?|[Heq|[Hin|Hw]]]; [done| |by apply Hb in Hin|].
      * split; [congruence|]. eauto 10.
      * destruct (welcome_is_reply ws (hello ws (parts msg) now s).1
                    (toPropertyKey (parts msg !! 1%nat)))
          as [[r Hr]|[[r Hr]|[r Hr]]]; congruence.
    + destruct (position_out s (parts msg)) as [(_ & -> & _)|[-> Ht]].
      * by intros ?%elem_of_nil.
      * rewrite elem_of_cons. intros [Heq|Hin]; [|by apply Hb in Hin].
        split; [congruence|]. exists ws, msg, now. eauto.
    + intros Hin%list_elem_of_singleton. discriminate.
  - rewrite elem_of_cons. intros [?|Hin]; [done|by apply Hb in Hin].
  - intros Hin%list_elem_of_singleton. discriminate.
  - rewrite !elem_of_cons. intros [?|[?|?%elem_of_nil]]; done.
  - by intros ?%elem_of_nil.
Qed.

Lemma file_written_only_by_hello_and_position_witness :
  users fresh !! "76561" = None
  ∧ ∃ content,
      content = users (step fresh (Message 1 "HELLO|76561|Alice|EU|UTC+1" "T0")).1
      ∧ content !! "76561"
        = Some (mkUser (Some "76561") (Some "Alice") (Some "EU") (Some "UTC+1")
                       (Some "T0") (Some "T0") (Some "N/A")).
Proof.
  split; [reflexivity|].
  set (e := Message 1 "HELLO|76561|Alice|EU|UTC+1" "T0").
  exists (users (step fresh e).1).
  destruct (file_written_only_by_hello_and_position fresh e (users (step fresh e).1))
    as [Hc _].
  - simpl. rewrite on_message_hello by reflexivity.
    apply elem_of_cons. right. apply elem_of_cons. by left.
  - split; [exact Hc|]. vm_compute. reflexivity.
Defined.

(** ** Which keys the registry holds *)

Lemma hello_for_true (k : string) (ws : nat) (msg now : string) :
  hello_for k (Message ws msg now) = true
  ↔ command msg = Some "HELLO" ∧ key_of msg = k.
Proof. simpl. by rewrite andb_true_iff, !bool_decide_eq_true. Qed.

Lemma hello_from_true (v : JsVal) (ws : nat) (msg now : string) :
  hello_from v (Message ws msg now) = true
  ↔ command msg = Some "HELLO" ∧ parts msg !! 1%nat = v.
Proof. simpl. by rewrite andb_true_iff, !bool_decide_eq_true. Qed.

Lemma position_for_true (k : string) (ws : nat) (msg now : string) :
  position_for k (Message ws msg now) = true
  ↔ command msg = Some "POSITION" ∧ key_of msg = k.
Proof. simpl. by rewrite andb_true_iff, !bool_decide_eq_true. Qed.

Lemma hello_lookup_ne (s : Server) (ws : nat) (ps : list string) (now k : string) :
  toPropertyKey (ps !! 1%nat) ≠ k →
  users (hello ws ps now s).1 !! k = users s !! k.
Proof.
  intros Hne. by destruct (hello_lookup s ws ps now k) as [->|[-> _]].
Qed.

Lemma step_keeps_record (s : Server) (e : Event) (k : string) :
  is_Some (users s !! k) → is_Some (users (step s e).1 !! k).
Proof.
  intros [u Hk]. destruct (step_firstConnected s e k u Hk) as (u' & -> & _). eauto.
Qed.

Lemma step_keys (s : Server) (e : Event) (k : string) :
  ordinary_key k = true →
  k ∈ dom (users (step s e).1) ↔ k ∈ dom (users s) ∨ hello_for k e = true.
Proof.
  intros Hord. rewrite !elem_of_dom.
  destruct e as [ws|ws msg now|ws| |res|res];
    try (simpl; split; [by left|by intros [?|?]]).
  rewrite hello_for_true. cbn [step]. unfold on_message, key_of.
  destruct (decide (command msg = Some "HELLO")) as [Hh|Hh].
  - destruct (decide (toPropertyKey (parts msg !! 1%nat) = k)) as [Heq|Hne].
    + rewrite hello_users, Heq, users_get_ordinary by done.
      destruct (users s !! k) as [old|] eqn:Hk; cbn [truthy];
        rewrite lookup_insert_eq; split; eauto.
    + rewrite hello_lookup_ne by done. intuition (subst; auto; congruence).
  - destruct (decide (command msg = Some "POSITION")) as [Hp|Hp];
      [|cbn [fst]; intuition (subst; auto; congruence)].
    destruct (position_lookup s (parts msg) k) as [->|(_ & old & Ho & ->)].
    + intuition (subst; auto; congruence).
    + rewrite Ho. split; eauto.
Qed.

(** X3: for a key that finds nothing on [Object.prototype], records are
    never removed, and a run adds the record exactly when one of its HELLO
    messages carries the key: after a run, such a key has a record if and
    only if it had one before or some HELLO message of the run carries it. *)
Theorem registry_keys_after_run (s : Server) (es : list Event) (k : string) :
  ordinary_key k = true →
  k ∈ dom (users (run s es).1)
  ↔ k ∈ dom (users s) ∨ Exists (fun e => hello_for k e = true) es.
Proof.
  intros Hord. revert s. induction es as [|e es IH]; intros s.
  - simpl. rewrite Exists_nil. tauto.
  - rewrite run_cons. cbn [fst]. rewrite IH, step_keys, Exists_cons by done. tauto.
Qed.

Lemma registry_keys_after_run_witness :
  "76561" ∈ dom (users (run fresh [GetEvents 9;
                                   Message 1 "HELLO|76561|Alice|EU|UTC+1" "T0";
                                   Close 1]).1)
  ∧ "4242" ∉ dom (users (run fresh [GetEvents 9;
                                    Message 1 "HELLO|76561|Alice|EU|UTC+1" "T0";
                                    Close 1]).1).
Proof.
  split.
  - apply (registry_keys_after_run fresh
             [GetEvents 9; Message 1 "HELLO|76561|Alice|EU|UTC+1" "T0"; Close 1]
             "76561"); [reflexivity|].
    right. apply Exists_cons_tl, Exists_cons_hd. reflexivity.
  - intros Hin.
    apply (registry_keys_after_run fresh
             [GetEvents 9; Message 1 "HELLO|76561|Alice|EU|UTC+1" "T0"; Close 1]
             "4242") in Hin; [|reflexivity].
    destruct Hin as [Hin|Hin].
    + by apply elem_of_dom in Hin as [u Hu].
    + apply Exists_cons in Hin as [Hin|Hin]; [discriminate Hin|].
      apply Exists_cons in Hin as [Hin|Hin]; [discriminate Hin|].
      apply Exists_cons in Hin as [Hin|Hin]; [discriminate Hin|].
      by apply Exists_nil in Hin.
Defined.

(** ** Who is shown as connected *)

Lemma step_presence (s : Server) (e : Event) (v : JsVal) :
  is_close e = false →
  v ∈ connectedUsers (step s e).1 ↔ v ∈ connectedUsers s ∨ hello_from v e = true.
Proof.
  intros Hc. destruct e as [ws|ws msg now|ws| |res|res]; try done;
    try (simpl; split; [by left|by intros [?|?]]).
  rewrite hello_from_true. cbn [step]. unfold on_message.
  destruct (decide (command msg = Some "HELLO")) as [Hh|Hh].
  - destruct (hello_frame s ws (parts msg) now) as (-> & _).
    rewrite elem_of_union, elem_of_singleton. intuition (subst; auto; congruence).
  - destruct (decide (command msg = Some "POSITION")) as [Hp|Hp];
      [|cbn [fst]; intuition (subst; auto; congruence)].
    destruct (position_frame s (parts msg)) as (-> & _).
    intuition (subst; auto; congruence).
Qed.

Lemma run_presence (es : list Event) : ∀ (s : Server) (v : JsVal),
  Forall (fun e => is_close e = false) es →
  v ∈ connectedUsers (run s es).1
  ↔ v ∈ connectedUsers s ∨ Exists (fun e => hello_from v e = true) es.
Proof.
  induction es as [|e es IH]; intros s v Hes.
  - simpl. rewrite Exists_nil. tauto.
  - inversion Hes; subst. rewrite run_cons. cbn [fst].
    rewrite IH, step_presence, Exists_cons by done. tauto.
Qed.

(** X4: once any socket has closed, the values shown as connected are
    exactly the second pieces of the HELLO messages received since the last
    close, whatever was connected before and whichever socket closed. *)
Theorem presence_is_hellos_since_last_close
    (s : Server) (pre post : list Event) (ws : nat) (v : JsVal) :
  Forall (fun e => is_close e = false) post →
  v ∈ connectedUsers (run s (pre ++ Close ws :: post)).1
  ↔ Exists (fun e => hello_from v e = true) post.
Proof.
  intros Hpost. rewrite run_app, run_cons. cbn [fst].
  rewrite run_presence by done. simpl. rewrite delete_each_empty.
  rewrite elem_of_empty. tauto.
Qed.

Lemma presence_is_hellos_since_last_close_witness :
  Some "4242" ∈ connectedUsers
    (run fresh [Message 1 "HELLO|76561|Alice|EU|UTC+1" "T0"; Close 2;
                Message 3 "HELLO|4242|Bob|US|UTC-5" "T1"; GetIndex]).1
  ∧ Some "76561" ∉ connectedUsers
    (run fresh [Message 1 "HELLO|76561|Alice|EU|UTC+1" "T0"; Close 2;
                Message 3 "HELLO|4242|Bob|US|UTC-5" "T1"; GetIndex]).1.
Proof.
  split.
  - apply (presence_is_hellos_since_last_close fresh
             [Message 1 "HELLO|76561|Alice|EU|UTC+1" "T0"]
             [Message 3 "HELLO|4242|Bob|US|UTC-5" "T1"; GetIndex] 2).
    + repeat constructor.
    + apply Exists_cons_hd. reflexivity.
  - intros Hin.
    apply (presence_is_hellos_since_last_close fresh
             [Message 1 "HELLO|76561|Alice|EU|UTC+1" "T0"]
             [Message 3 "HELLO|4242|Bob|US|UTC-5" "T1"; GetIndex] 2) in Hin.
    + apply Exists_cons in Hin as [Hin|Hin]; [discriminate Hin|].
      apply Exists_cons in Hin as [Hin|Hin]; [discriminate Hin|].
      by apply Exists_nil in Hin.
    + repeat constructor.
Defined.

Lemma step_connected_known (s : Server) (e : Event) :
  (∀ v, ordinary_key (toPropertyKey v) = true → v ∈ connectedUsers s →
        is_Some (users s !! toPropertyKey v)) →
  ∀ v, ordinary_key (toPropertyKey v) = true → v ∈ connectedUsers (step s e).1 →
       is_Some (users (step s e).1 !! toPropertyKey v).
Proof.
  intros Hinv v Hord Hv.
  destruct (decide (is_close e = true)) as [Hc|Hc].
  { destruct e; try done. simpl in Hv. rewrite delete_each_empty in Hv.
    by apply elem_of_empty in Hv. }
  apply not_true_is_false in Hc.
  apply step_presence in Hv; [|done]. destruct Hv as [Hv|Hv].
  { apply step_keeps_record. auto. }
  destruct e as [ws|ws msg now|ws| |res|res]; try done.
  apply hello_from_true in Hv as [Hh <-].
  apply elem_of_dom, step_keys; [done|]. right. by apply hello_for_true.
Qed.

(** X5: presence never names an identity the registry does not hold, for
    the identities whose key finds nothing on [Object.prototype]: when every
    such connected value indexes to a record (as at start-up, where nobody
    is connected), this is so after every run. *)
Theorem connected_ids_have_records (s : Server) (es : list Event) :
  (∀ v, ordinary_key (toPropertyKey v) = true → v ∈ connectedUsers s →
        is_Some (users s !! toPropertyKey v)) →
  ∀ v, ordinary_key (toPropertyKey v) = true → v ∈ connectedUsers (run s es).1 →
       is_Some (users (run s es).1 !! toPropertyKey v).
Proof.
  revert s. induction es as [|e es IH]; intros s Hinv; [done|].
  rewrite run_cons. cbn [fst]. apply IH. by apply step_connected_known.
Qed.

Lemma connected_ids_have_records_witness :
  is_Some (users (run fresh [Message 1 "HELLO" "T0"; GetEvents 9;
                             Message 2 "HELLO|76561|Alice|EU|UTC+1" "T1"]).1
             !! "undefined").
Proof.
  apply (connected_ids_have_records fresh
           [Message 1 "HELLO" "T0"; GetEvents 9;
            Message 2 "HELLO|76561|Alice|EU|UTC+1" "T1"]
           (fun v _ Hv => False_ind _ (not_elem_of_empty (C:=gset JsVal) v Hv))
           None).
  - reflexivity.
  - apply (bool_decide_unpack _). vm_compute. exact I.
Defined.

(** ** The shape of the records *)

Lemma step_record_ok (s : Server) (e : Event) :
  map_Forall record_ok (users s) → map_Forall record_ok (users (step s e).1).
Proof.
  intros Hinv. destruct e as [ws|ws msg now|ws| |res|res]; try exact Hinv.
  cbn [step]. unfold on_message.
  destruct (decide (command msg = Some "HELLO")) as [Hh|Hh].
  - rewrite hello_users.
    destruct (users_get s (toPropertyKey (parts msg !! 1%nat)))
      as [old| | |v] eqn:Hget; try exact Hinv.
    + apply users_get_record in Hget. apply map_Forall_insert_2; [|done].
      destruct (Hinv _ _ Hget) as (Hid & Hf & _ & Hp).
      unfold record_ok, returning_user. simpl. eauto.
    + destruct (truthy (PValue v)); [exact Hinv|].
      apply map_Forall_insert_2; [|done].
      unfold record_ok, new_user. simpl. eauto.
  - destruct (decide (command msg = Some "POSITION")) as [Hp|Hp]; [|exact Hinv].
    rewrite position_users.
    destruct (users_get s (toPropertyKey (parts msg !! 1%nat)))
      as [old| | |v] eqn:Hget; try exact Hinv.
    apply users_get_record in Hget. apply map_Forall_insert_2; [|done].
    destruct (Hinv _ _ Hget) as (Hid & Hf & Hl & _).
    unfold record_ok, moved_user. simpl. eauto.
Qed.

(** X6: the handlers keep the records well formed: when every record's
    [steamId] indexes to the key it is stored under and has its two times
    and its position set (as in an empty registry), this is so after every
    run. *)
Theorem records_stay_well_formed (s : Server) (es : list Event) :
  map_Forall record_ok (users s) →
  map_Forall record_ok (users (run s es).1).
Proof.
  revert s. induction es as [|e es IH]; intros s Hinv; [done|].
  rewrite run_cons. cbn [fst]. apply IH. by apply step_record_ok.
Qed.

Lemma records_stay_well_formed_witness :
  map_Forall record_ok
    (users (run fresh [Message 1 "HELLO" "T0";
                       Message 1 "POSITION|undefined|1|2|3" "T1";
                       Message 2 "HELLO|76561|Alice" "T2"]).1).
Proof.
  apply (records_stay_well_formed fresh). apply map_Forall_empty.
Defined.

(** ** The most recent HELLO and the most recent POSITION *)

Lemma step_lastConnected (s : Server) (e : Event) (k : string) (u : User) :
  hello_for k e = false →
  users s !! k = Some u →
  ∃ u', users (step s e).1 !! k = Some u' ∧ lastConnected u' = lastConnected u.
Proof.
  intros He Hk. destruct e as [ws|ws msg now|ws| |res|res]; simpl; eauto.
  assert (Hn : ¬ (command msg = Some "HELLO" ∧ key_of msg = k)).
  { rewrite <- hello_for_true. by rewrite He. }
  unfold on_message, key_of in *.
  destruct (decide (command msg = Some "HELLO")) as [Hh|Hh].
  - rewrite hello_lookup_ne by tauto. eauto.
  - destruct (decide (command msg = Some "POSITION")) as [Hp|Hp]; [|eauto].
    destruct (position_lookup s (parts msg) k) as [->|(_ & old & Ho & ->)]; eauto.
    exists (moved_user old (parts msg)). split; [done|]. simpl. congruence.
Qed.

Lemma run_lastConnected (es : list Event) : ∀ (s : Server) (k : string) (u : User),
  Forall (fun e => hello_for k e = false) es →
  users s !! k = Some u →
  ∃ u', users (run s es).1 !! k = Some u' ∧ lastConnected u' = lastConnected u.
Proof.
  induction es as [|e es IH]; intros s k u Hes Hk; [simpl; eauto|].
  inversion Hes; subst. rewrite run_cons. cbn [fst].
  destruct (step_lastConnected s e k u) as (u1 & Hk1 & Hl1); [done..|].
  destruct (IH _ _ _ H2 Hk1) as (u2 & Hk2 & Hl2).
  exists u2. split; [done|congruence].
Qed.

Lemma hello_sets_lastConnected (s : Server) (ws : nat) (msg now : string) :
  command msg = Some "HELLO" →
  ordinary_key (key_of msg) = true →
  ∃ u, users (step s (Message ws msg now)).1 !! key_of msg = Some u
       ∧ lastConnected u = Some now.
Proof.
  intros Hh Hord. simpl. rewrite on_message_hello by done.
  rewrite hello_users. fold (key_of msg). rewrite users_get_ordinary by done.
  destruct (users s !! key_of msg); cbn [truthy]; rewrite lookup_insert_eq; eauto.
Qed.

(** X19: [lastConnected] of a record is the time of the most recent HELLO
    for its key, for a key that finds nothing on [Object.prototype]: after a
    HELLO for the key at time [now], whatever came before and as long as no
    other HELLO for the key follows, the record's [lastConnected] is [now]. *)
Theorem lastConnected_is_latest_hello
    (s : Server) (key : string) (pre post : list Event) (ws : nat) (msg now : string) :
  ordinary_key key = true →
  hello_for key (Message ws msg now) = true →
  Forall (fun e => hello_for key e = false) post →
  ∃ u, users (run s (pre ++ Message ws msg now :: post)).1 !! key = Some u
       ∧ lastConnected u = Some now.
Proof.
  intros Hord [Hh <-]%hello_for_true Hpost.
  rewrite run_app, run_cons. cbn [fst].
  destruct (hello_sets_lastConnected (run s pre).1 ws msg now Hh Hord)
    as (u & Hu & Hl).
  destruct (run_lastConnected post _ _ _ Hpost Hu) as (u' & Hu' & Hl').
  exists u'. split; [done|congruence].
Qed.

Lemma lastConnected_is_latest_hello_witness :
  ∃ u, users (run fresh [Message 1 "HELLO|76561|Alice|EU|UTC+1" "T0";
                         Message 2 "HELLO|76561|Alicia|US|UTC-5" "T1";
                         Message 2 "POSITION|76561|1|2|3" "T2";
                         Close 1]).1 !! "76561" = Some u
       ∧ lastConnected u = Some "T1".
Proof.
  apply (lastConnected_is_latest_hello fresh "76561"
           [Message 1 "HELLO|76561|Alice|EU|UTC+1" "T0"]
           [Message 2 "POSITION|76561|1|2|3" "T2"; Close 1]
           2 "HELLO|76561|Alicia|US|UTC-5" "T1").
  - reflexivity.
  - reflexivity.
  - repeat constructor.
Defined.

Lemma step_lastPosition (s : Server) (e : Event) (k : string) (u : User) :
  position_for k e = false →
  users s !! k = Some u →
  ∃ u', users (step s e).1 !! k = Some u' ∧ lastPosition u' = lastPosition u.
Proof.
  intros He Hk. destruct e as [ws|ws msg now|ws| |res|res]; simpl; eauto.
  assert (Hn : ¬ (command msg = Some "POSITION" ∧ key_of msg = k)).
  { rewrite <- position_for_true. by rewrite He. }
  unfold on_message, key_of in *.
  destruct (decide (command msg = Some "HELLO")) as [Hh|Hh].
  - destruct (hello_lookup s ws (parts msg) now k)
      as [->|(_ & [(old & Ho & ->)|[Ho _]])]; eauto; [|congruence].
    exists (returning_user old (parts msg) now). split; [done|]. simpl. congruence.
  - destruct (decide (command msg = Some "POSITION")) as [Hp|Hp]; [|eauto].
    destruct (position_lookup s (parts msg) k) as [->|(Heq & _)]; eauto.
    symmetry in Heq. tauto.
Qed.

Lemma run_lastPosition (es : list Event) : ∀ (s : Server) (k : string) (u : User),
  Forall (fun e => position_for k e = false) es →
  users s !! k = Some u →
  ∃ u', users (run s es).1 !! k = Some u' ∧ lastPosition u' = lastPosition u.
Proof.
  induction es as [|e es IH]; intros s k u Hes Hk; [simpl; eauto|].
  inversion Hes; subst. rewrite run_cons. cbn [fst].
  destruct (step_lastPosition s e k u) as (u1 & Hk1 & Hl1); [done..|].
  destruct (IH _ _ _ H2 Hk1) as (u2 & Hk2 & Hl2).
  exists u2. split; [done|congruence].
Qed.

(** X20: [lastPosition] is that of the most recent POSITION message
    processed for the key, whatever the order of the coordinates' values or
    of any time: after a POSITION for a key that has a record by then, and as
    long as no other POSITION for the key follows, the record's
    [lastPosition] is the text of that message's coordinates. *)
Theorem lastPosition_is_latest_position
    (s : Server) (pre post : list Event) (ws : nat) (msg now : string) :
  command msg = Some "POSITION" →
  is_Some (users (run s pre).1 !! key_of msg) →
  Forall (fun e => position_for (key_of msg) e = false) post →
  ∃ u, users (run s (pre ++ Message ws msg now :: post)).1 !! key_of msg = Some u
       ∧ lastPosition u
         = Some (position_string (parts msg !! 2%nat) (parts msg !! 3%nat)
                                 (parts msg !! 4%nat)).
Proof.
  intros Hp [old Hold] Hpost.
  rewrite run_app, run_cons. cbn [fst].
  rewrite (position_known_key (run s pre).1 ws msg now old Hp Hold). cbn [fst].
  destruct (run_lastPosition post
              (set_users (<[key_of msg := moved_user old (parts msg)]>
                            (users (run s pre).1)) (run s pre).1)
              (key_of msg) (moved_user old (parts msg)) Hpost)
    as (u' & Hu' & Hl'); [apply lookup_insert_eq|].
  exists u'. split; [done|]. by rewrite Hl'.
Qed.

Lemma lastPosition_is_latest_position_witness :
  ∃ u, users (run fresh [Message 1 "HELLO|76561|Alice|EU|UTC+1" "T0";
                         Message 1 "POSITION|76561|9|9|9" "T1";
                         Message 1 "POSITION|76561|1.2345|-3|0" "T2";
                         Message 2 "HELLO|76561|Alice|EU|UTC+1" "T3"]).1
            !! "76561" = Some u
       ∧ lastPosition u = Some "1.23, -3.00, 0.00".
Proof.
  destruct (lastPosition_is_latest_position fresh
              [Message 1 "HELLO|76561|Alice|EU|UTC+1" "T0";
               Message 1 "POSITION|76561|9|9|9" "T1"]
              [Message 2 "HELLO|76561|Alice|EU|UTC+1" "T3"]
              1 "POSITION|76561|1.2345|-3|0" "T2") as (u & Hu & Hl).
  - reflexivity.
  - vm_compute. eexists. reflexivity.
  - repeat constructor.
  - exists u. split; [exact Hu|]. vm_compute in Hl. exact Hl.
Defined.

(** ** Messages in sequence *)

Lemma server_eq (s1 s2 : Server) :
  users s1 = users s2 → connectedUsers s1 = connectedUsers s2 →
  sseClients s1 = sseClients s2 → clients s1 = clients s2 →
  prototype s1 = prototype s2 → s1 = s2.
Proof. destruct s1, s2. simpl. congruence. Qed.

(** [users[k]] depends on the registry and on [Object.prototype] only, and
    on the latter only when it is a value found there. *)
Lemma users_get_same_users (s s' : Server) (k : string) :
  users s' = users s →
  (∀ v, users_get s k ≠ PValue v) ∨ prototype s' = prototype s →
  users_get s' k = users_get s k.
Proof.
  unfold users_get. intros -> Hp. destruct (users s !! k); [done|].
  repeat case_decide; try done. destruct Hp as [Hp| ->]; [|done].
  by destruct (Hp (default None (prototype_get (prototype s) k))).
Qed.

Lemma difference_twice (a b : gset string) : a ∖ b ∖ b = a ∖ b.
Proof. apply set_eq. intros x. rewrite !elem_of_difference. tauto. Qed.

Lemma moved_user_twice (old : User) (ps1 ps2 : list string) :
  moved_user (moved_user old ps1) ps2 = moved_user old ps2.
Proof. unfold moved_user. simpl. by rewrite difference_twice. Qed.

Lemma returning_user_twice (old : User) (ps : list string) (now : string) :
  returning_user (returning_user old ps now) ps now = returning_user old ps now.
Proof. unfold returning_user. simpl. by rewrite difference_twice. Qed.

Lemma returning_user_new (ps : list string) (now : string) :
  returning_user (new_user ps now) ps now = new_user ps now.
Proof.
  unfold returning_user, new_user, mkUser. simpl. f_equal.
Qed.

(** The state a POSITION and a HELLO leave behind. *)
Lemma position_state (s : Server) (ps : list string) :
  (position ps s).1
  = match users_get s (toPropertyKey (ps !! 1%nat)) with
    | PRecord old =>
        set_users (<[toPropertyKey (ps !! 1%nat) := moved_user old ps]> (users s)) s
    | PPrototype => set_prototype (moved_prototype (prototype s) ps) s
    | _ => s
    end.
Proof.
  unfold position. destruct (users_get s _) as [old| | |v]; try done.
  by destruct (truthy (PValue v)).
Qed.

Lemma hello_state (s : Server) (ws : nat) (ps : list string) (now : string) :
  (hello ws ps now s).1
  = set_connectedUsers ({[ps !! 1%nat]} ∪ connectedUsers s)
      match users_get s (toPropertyKey (ps !! 1%nat)) with
      | PRecord old =>
          set_users (<[toPropertyKey (ps !! 1%nat) := returning_user old ps now]>
                       (users s)) s
      | PFunction => s
      | PPrototype => set_prototype (returning_prototype (prototype s) ps now) s
      | PValue v =>
          if truthy (PValue v) then s
          else set_users (<[toPropertyKey (ps !! 1%nat) := new_user ps now]>
                            (users s)) s
      end.
Proof.
  unfold hello. destruct (users_get s _) as [old| | |v]; try done.
  by destruct (truthy (PValue v)).
Qed.

(** X10: a POSITION message leaves no trace once another one for the same
    key has been processed: two POSITION messages for one key, on any
    sockets, leave the server in the state the second one alone would have
    left it in. *)
Theorem position_overwrites_position
    (s : Server) (ws1 ws2 : nat) (msg1 msg2 now1 now2 : string) :
  command msg1 = Some "POSITION" →
  command msg2 = Some "POSITION" →
  key_of msg1 = key_of msg2 →
  (run s [Message ws1 msg1 now1; Message ws2 msg2 now2]).1
  = (step s (Message ws2 msg2 now2)).1.
Proof.
  intros H1 H2 Hk. rewrite !run_cons. cbn [run fst step].
  rewrite !on_message_position by done.
  rewrite (position_state s (parts msg1)), (position_state s (parts msg2)).
  fold (key_of msg1) (key_of msg2). rewrite Hk.
  destruct (users_get s (key_of msg2)) as [old| | |v] eqn:Hget;
    rewrite position_state; fold (key_of msg2).
  - rewrite (users_get_own _ (key_of msg2) (moved_user old (parts msg1)))
      by apply lookup_insert_eq.
    apply server_eq; try done. simpl.
    by rewrite insert_insert_eq, moved_user_twice.
  - by rewrite Hget.
  - rewrite (users_get_same_users s) by (try done; left; congruence).
    rewrite Hget. by apply server_eq.
  - by rewrite Hget.
Qed.

Lemma position_overwrites_position_witness :
  (run fresh [Message 1 "HELLO|76561|Alice|EU|UTC+1" "T0";
              Message 1 "POSITION|76561|9|9|9" "T1";
              Message 2 "POSITION|76561|1|2|3" "T2"]).1
  = (run fresh [Message 1 "HELLO|76561|Alice|EU|UTC+1" "T0";
                Message 2 "POSITION|76561|1|2|3" "T2"]).1.
Proof.
  rewrite (run_app [Message 1 "HELLO|76561|Alice|EU|UTC+1" "T0"]
                   [Message 1 "POSITION|76561|9|9|9" "T1";
                    Message 2 "POSITION|76561|1|2|3" "T2"]).
  rewrite (run_app [Message 1 "HELLO|76561|Alice|EU|UTC+1" "T0"]
                   [Message 2 "POSITION|76561|1|2|3" "T2"]).
  cbn [fst].
  rewrite (position_overwrites_position _ 1 2 "POSITION|76561|9|9|9"
             "POSITION|76561|1|2|3" "T1" "T2" eq_refl eq_refl eq_refl).
  rewrite (run_cons _ _ []). reflexivity.
Defined.

(** X11: a HELLO message is idempotent on the state: the same message
    processed a second time at the same instant, on any socket, changes
    nothing more. *)
Theorem hello_twice_is_hello_once
    (s : Server) (ws1 ws2 : nat) (msg now : string) :
  command msg = Some "HELLO" →
  (run s [Message ws1 msg now; Message ws2 msg now]).1
  = (step s (Message ws1 msg now)).1.
Proof.
  assert (Hc : ∀ (a : JsVal) (c : gset JsVal), {[a]} ∪ ({[a]} ∪ c) = {[a]} ∪ c).
  { intros a c. apply set_eq. intros x. rewrite !elem_of_union. tauto. }
  intros Hh. rewrite !run_cons. cbn [run fst step].
  rewrite !on_message_hello by done.
  rewrite (hello_state s ws1). fold (key_of msg).
  destruct (users_get s (key_of msg)) as [old| | |v] eqn:Hget;
    [| | |destruct (truthy (PValue v)) eqn:Ht];
    rewrite hello_state; fold (key_of msg).
  - rewrite (users_get_own _ (key_of msg) (returning_user old (parts msg) now))
      by apply lookup_insert_eq.
    apply server_eq; try done; simpl; [|apply Hc].
    by rewrite insert_insert_eq, returning_user_twice.
  - rewrite (users_get_same_users s) by (try done; by right).
    rewrite Hget. apply server_eq; try done. apply Hc.
  - rewrite (users_get_same_users s) by (try done; left; congruence).
    rewrite Hget. apply server_eq; try done. apply Hc.
  - rewrite (users_get_same_users s) by (try done; by right).
    rewrite Hget, Ht. apply server_eq; try done. apply Hc.
  - rewrite (users_get_own _ (key_of msg) (new_user (parts msg) now))
      by apply lookup_insert_eq.
    apply server_eq; try done; simpl; [|apply Hc].
    by rewrite insert_insert_eq, returning_user_new.
Qed.

Lemma hello_twice_is_hello_once_witness :
  (run fresh [Message 1 "HELLO|76561|Alice|EU|UTC+1" "T0";
              Message 2 "HELLO|76561|Alice|EU|UTC+1" "T0"]).1
  = (step fresh (Message 1 "HELLO|76561|Alice|EU|UTC+1" "T0")).1.
Proof.
  apply (hello_twice_is_hello_once fresh 1 2 "HELLO|76561|Alice|EU|UTC+1" "T0").
  reflexivity.
Defined.

(** ** Observer feeds *)

Lemma written_to_broadcast (res : nat) (s : Server) :
  written_to res (broadcastUsers s)
  = (fun _ => formatUsers s) <$> filter (fun r => r = res) (sseClients s).
Proof.
  unfold written_to, broadcastUsers.
  induction (sseClients s) as [|r l IH]; [done|].
  rewrite filter_cons. simpl.
  destruct (decide (r = res)); simpl; [f_equal|]; exact IH.
Qed.

Lemma filter_eq_absent (res : nat) (l : list nat) :
  res ∉ l → filter (fun r => r = res) l = [].
Proof.
  induction l as [|r l IH]; [done|].
  rewrite not_elem_of_cons. intros [Hne Hl].
  rewrite filter_cons_False by congruence. by apply IH.
Qed.

Lemma written_to_broadcast_absent (res : nat) (s : Server) :
  res ∉ sseClients s → written_to res (broadcastUsers s) = [].
Proof.
  intros Hres. by rewrite written_to_broadcast, filter_eq_absent.
Qed.

(** X7: [broadcastUsers] writes the one snapshot of the moment to every
    registered feed, once each, and nothing to any other response. *)
Theorem broadcast_reaches_each_feed_once (s : Server) (res : nat) :
  NoDup (sseClients s) →
  length (broadcastUsers s) = length (sseClients s)
  ∧ written_to res (broadcastUsers s)
    = if bool_decide (res ∈ sseClients s) then [formatUsers s] else [].
Proof.
  intros Hnd. split; [unfold broadcastUsers; by rewrite length_fmap|].
  case_bool_decide as Hin; [|by apply written_to_broadcast_absent].
  rewrite written_to_broadcast.
  induction (sseClients s) as [|r l IH]; [by apply elem_of_nil in Hin|].
  apply NoDup_cons in Hnd as [Hr Hnd]. rewrite filter_cons.
  destruct (decide (r = res)) as [->|Hne].
  - by rewrite filter_eq_absent.
  - apply IH; [done|]. apply elem_of_cons in Hin as [?|?]; [congruence|done].
Qed.

Lemma broadcast_reaches_each_feed_once_witness :
  let s := (run fresh [GetEvents 7; Message 1 "HELLO|76561|Alice|EU|UTC+1" "T0";
                       GetEvents 9]).1 in
  written_to 9 (broadcastUsers s) = [formatUsers s]
  ∧ written_to 8 (broadcastUsers s) = [].
Proof.
  intros s.
  assert (Hnd : NoDup (sseClients s)).
  { change (sseClients s) with [7; 9]%nat. apply NoDup_cons. split.
    - intros Hin. apply elem_of_cons in Hin as [Heq|Hin]; [discriminate Heq|].
      by apply elem_of_nil in Hin.
    - apply NoDup_singleton. }
  split.
  - apply (broadcast_reaches_each_feed_once s 9 Hnd).
  - apply (broadcast_reaches_each_feed_once s 8 Hnd).
Defined.

Lemma written_to_hello (res : nat) (s : Server) (ws : nat) (ps : list string)
    (now : string) :
  written_to res (hello ws ps now s).2
  = written_to res (broadcastUsers (hello ws ps now s).1).
Proof.
  destruct (hello_out s ws ps now) as [line ->].
  change (?a :: ?b :: ?l ++ ?r) with ([a; b] ++ l ++ r).
  rewrite !written_to_app.
  destruct (welcome_is_reply ws (hello ws ps now s).1 (toPropertyKey (ps !! 1%nat)))
    as [[r ->]|[[r ->]|[r ->]]]; cbn [written_to omap app]; by rewrite app_nil_r.
Qed.

Lemma written_to_position (res : nat) (s : Server) (ps : list string) :
  ((position ps s).1 = s ∧ (position ps s).2 = [])
  ∨ written_to res (position ps s).2
    = written_to res (broadcastUsers (position ps s).1).
Proof.
  destruct (position_out s ps) as [(? & ? & _)|[-> _]]; [by left|by right].
Qed.

Lemma step_unsubscribed (s : Server) (e : Event) (res : nat) :
  subscribes res e = false →
  res ∉ sseClients s →
  written_to res (step s e).2 = [] ∧ res ∉ sseClients (step s e).1.
Proof.
  intros He Hres. destruct e as [ws|ws msg now|ws| |r|r]; cbn [step].
  - done.
  - unfold on_message. repeat case_decide; [| |done].
    + destruct (hello_frame s ws (parts msg) now) as (_ & Hf & _).
      rewrite written_to_hello, written_to_broadcast_absent; by rewrite Hf.
    + destruct (position_frame s (parts msg)) as (_ & Hf & _).
      rewrite Hf. split; [|done].
      destruct (written_to_position res s (parts msg)) as [[_ ->]| ->]; [done|].
      apply written_to_broadcast_absent. by rewrite Hf.
  - unfold on_close. cbn [fst snd sseClients set_connectedUsers set_clients].
    split; [|done]. by rewrite written_to_app, written_to_broadcast_absent.
  - done.
  - simpl in He. apply bool_decide_eq_false in He.
    unfold get_events. cbn [fst snd sseClients set_sseClients]. split.
    + unfold written_to. simpl. by rewrite decide_False.
    + rewrite elem_of_app, list_elem_of_singleton. intros [?|?]; congruence.
  - unfold events_close. cbn [fst snd sseClients set_sseClients].
    split; [done|]. intros [_ Hin]%list_elem_of_filter. by apply Hres.
Qed.

Lemma run_unsubscribed (es : list Event) : ∀ (s : Server) (res : nat),
  Forall (fun e => subscribes res e = false) es →
  res ∉ sseClients s →
  written_to res (run s es).2 = [] ∧ res ∉ sseClients (run s es).1.
Proof.
  induction es as [|e es IH]; intros s res Hes Hres; [done|].
  inversion Hes; subst. rewrite run_cons. cbn [fst snd].
  destruct (step_unsubscribed s e res) as [Hw Hs]; [done..|].
  destruct (IH _ _ H2 Hs) as [Hw' Hs'].
  by rewrite written_to_app, Hw, Hw'.
Qed.

(** X8: a feed whose request has closed is never written again: after the
    close handler of [res] has run, no event writes to [res], as long as
    [res] does not subscribe anew. *)
Theorem closed_feed_is_never_written
    (s : Server) (res : nat) (es : list Event) :
  Forall (fun e => subscribes res e = false) es →
  written_to res (run s (EventsClose res :: es)).2 = []
  ∧ res ∉ sseClients (run s (EventsClose res :: es)).1.
Proof.
  intros Hes. rewrite run_cons. cbn [step events_close fst snd app].
  apply run_unsubscribed; [done|]. cbn [sseClients set_sseClients].
  intros [Hne _]%list_elem_of_filter. by apply Hne.
Qed.

Lemma closed_feed_is_never_written_witness :
  let s := (run fresh [GetEvents 7; GetEvents 9]).1 in
  written_to 9 (run s [EventsClose 9;
                       Message 1 "HELLO|76561|Alice|EU|UTC+1" "T0";
                       Message 1 "POSITION|76561|1|2|3" "T1"; Close 1]).2 = [].
Proof.
  intros s.
  apply (closed_feed_is_never_written s 9
           [Message 1 "HELLO|76561|Alice|EU|UTC+1" "T0";
            Message 1 "POSITION|76561|1|2|3" "T1"; Close 1]).
  repeat constructor.
Defined.

Lemma last_written_broadcast (s : Server) (res : nat) :
  res ∈ sseClients s →
  last (written_to res (broadcastUsers s)) = Some (formatUsers s).
Proof.
  intros Hin. rewrite written_to_broadcast.
  assert (Hne : filter (fun r => r = res) (sseClients s) ≠ []).
  { intros Hnil. by apply (filter_nil_not_elem_of _ _ res Hnil). }
  destruct (filter (fun r => r = res) (sseClients s)) as [|r l] using rev_ind;
    [done|].
  by rewrite fmap_app, last_app.
Qed.

(** What one event does to a feed that is registered after it: either it
    writes to the feed, last the snapshot of the state it leaves, or it
    writes nothing to the feed, which was registered before, and leaves the
    snapshot as it was. *)
Lemma step_feed (s : Server) (e : Event) (res : nat) :
  res ∈ sseClients (step s e).1 →
  last (written_to res (step s e).2) = Some (formatUsers (step s e).1)
  ∨ (written_to res (step s e).2 = []
     ∧ res ∈ sseClients s
     ∧ formatUsers (step s e).1 = formatUsers s).
Proof.
  destruct e as [ws|ws msg now|ws| |r|r]; cbn [step].
  - intros Hin. right. done.
  - unfold on_message. repeat case_decide; [| |by right].
    + intros Hin. left. rewrite written_to_hello. by apply last_written_broadcast.
    + intros Hin.
      destruct (written_to_position res s (parts msg)) as [[Hs Hout]|Hout].
      * right. rewrite Hout. by rewrite Hs in Hin |- *.
      * left. rewrite Hout. by apply last_written_broadcast.
  - unfold on_close. cbn [fst snd sseClients set_connectedUsers set_clients].
    intros Hin. left. rewrite written_to_app. cbn [written_to omap app].
    by apply last_written_broadcast.
  - intros Hin. right. done.
  - unfold get_events. cbn [fst snd sseClients set_sseClients].
    intros Hin. unfold written_to.
    destruct (decide (r = res)) as [->|Hne].
    + left. simpl. by rewrite decide_True.
    + right. split; [simpl; by rewrite decide_False|]. split; [|done].
      apply elem_of_app in Hin as [?|Hin]; [done|].
      apply list_elem_of_singleton in Hin. congruence.
  - unfold events_close. cbn [fst snd sseClients set_sseClients].
    intros [_ Hin]%list_elem_of_filter. right. done.
Qed.

(** X9: no registered feed holds a stale snapshot: after any run that starts
    without the feed [res], if [res] is registered at the end, the last
    snapshot written to it is the snapshot of the state at the end. *)
Theorem registered_feed_has_current_snapshot
    (s : Server) (es : list Event) (res : nat) :
  res ∉ sseClients s →
  res ∈ sseClients (run s es).1 →
  last (written_to res (run s es).2) = Some (formatUsers (run s es).1).
Proof.
  intros Hres. induction es as [|e es IH] using rev_ind; [done|].
  rewrite run_snoc. cbn [fst snd]. intros Hin.
  rewrite written_to_app.
  destruct (step_feed (run s es).1 e res Hin) as [Hlast|(Hnil & Hin' & Hfmt)].
  - destruct (written_to res (step (run s es).1 e).2) as [|d l] using rev_ind;
      [done|].
    rewrite app_assoc, last_snoc. by rewrite last_snoc in Hlast.
  - rewrite Hnil, app_nil_r, Hfmt. by apply IH.
Qed.

Lemma registered_feed_has_current_snapshot_witness :
  let es := [Message 1 "HELLO|76561|Alice|EU|UTC+1" "T0"; GetEvents 9;
             Message 1 "POSITION|76561|1|2|3" "T1"; GetEvents 7; Close 1;
             Connection 2] in
  last (written_to 9 (run fresh es).2) = Some (formatUsers (run fresh es).1).
Proof.
  intros es. apply (registered_feed_has_current_snapshot fresh es 9).
  - apply not_elem_of_nil.
  - change (sseClients (run fresh es).1) with [9; 7]%nat.
    apply elem_of_cons. by left.
Defined.

(** ** The snapshot *)

(** X16: the snapshot has exactly one entry for each record of the
    registry, built from that record and the presence set; a record is shown
    as connected exactly when its [steamId] is a member of
    [connectedUsers]. *)
Theorem snapshot_has_one_entry_per_record (s : Server) :
  length (formatUsers s) = size (users s)
  ∧ (∀ v, v ∈ formatUsers s ↔ ∃ k u, users s !! k = Some u ∧ v = formatUser s u)
  ∧ (∀ u, view_connected (formatUser s u) = true ↔ steamId u ∈ connectedUsers s).
Proof.
  split; [|split].
  - unfold formatUsers. by rewrite !length_fmap, length_map_to_list.
  - apply elem_of_formatUsers.
  - intros u. rewrite formatUser_fields. simpl. apply bool_decide_eq_true.
Qed.

Lemma hello_broadcasts (s : Server) (ws : nat) (ps : list string) (now : string)
    (e : Effect) :
  e ∈ broadcastUsers (hello ws ps now s).1 → e ∈ (hello ws ps now s).2.
Proof.
  intros He. destruct (hello_out s ws ps now) as [line ->].
  rewrite !elem_of_cons, elem_of_app. auto.
Qed.

(** X12: after a HELLO the identity is shown as connected: in a registry of
    well-formed records, a HELLO whose second piece is [id], a name that
    finds nothing on [Object.prototype] and is not the text "undefined",
    leaves a record under the key [id] whose snapshot entry has [connected]
    true, and that snapshot is what the HELLO publishes. *)
Theorem hello_shows_identity_connected
    (s : Server) (ws : nat) (msg now id : string) :
  command msg = Some "HELLO" →
  parts msg !! 1%nat = Some id →
  ordinary_key id = true →
  id ≠ "undefined" →
  map_Forall record_ok (users s) →
  let s' := (step s (Message ws msg now)).1 in
  ∃ u, users s' !! id = Some u
       ∧ formatUser s' u ∈ formatUsers s'
       ∧ view_connected (formatUser s' u) = true
       ∧ ∀ res, res ∈ sseClients s →
           SseWrite res (formatUsers s') ∈ (step s (Message ws msg now)).2.
Proof.
  intros Hh Hid Hord Hne Hok. cbn zeta. cbn [step].
  rewrite on_message_hello by done.
  destruct (hello_frame s ws (parts msg) now) as (Hconn & Hsse & _).
  assert (Hu : ∃ u, users (hello ws (parts msg) now s).1 !! id = Some u
                    ∧ steamId u = Some id).
  { rewrite hello_users, Hid. cbn [toPropertyKey].
    rewrite users_get_ordinary by done.
    destruct (users s !! id) as [old|] eqn:Hold; cbn [truthy];
      rewrite lookup_insert_eq.
    - eexists. split; [done|]. cbn [returning_user steamId].
      destruct (Hok _ _ Hold) as (Hkey & _).
      destruct (steamId old) as [i|]; simpl in Hkey; congruence.
    - eexists. split; [done|]. exact Hid. }
  destruct Hu as (u & Hu & Hsid). exists u. split; [exact Hu|].
  split; [apply elem_of_formatUsers; eauto|]. split.
  - rewrite formatUser_fields. cbn [view_connected]. apply bool_decide_eq_true.
    rewrite Hsid, Hconn, Hid. by apply elem_of_union_l, elem_of_singleton.
  - intros res Hres. apply hello_broadcasts.
    unfold broadcastUsers. apply list_elem_of_fmap. exists res. split; [done|].
    by rewrite Hsse.
Qed.

Lemma hello_shows_identity_connected_witness :
  let s := (run fresh [Message 1 "HELLO|76561|Alice|EU|UTC+1" "T0"; Close 1]).1 in
  let s' := (step s (Message 2 "HELLO|76561|Alice|EU|UTC+1" "T1")).1 in
  ∃ u, users s' !! "76561" = Some u ∧ view_connected (formatUser s' u) = true.
Proof.
  intros s s'.
  destruct (hello_shows_identity_connected s 2 "HELLO|76561|Alice|EU|UTC+1" "T1"
              "76561") as (u & Hu & _ & Hc & _).
  - reflexivity.
  - reflexivity.
  - reflexivity.
  - discriminate.
  - apply (step_record_ok _ (Close 1)),
      (step_record_ok fresh (Message 1 "HELLO|76561|Alice|EU|UTC+1" "T0")),
      map_Forall_empty.
  - exists u. split; [exact Hu|exact Hc].
Defined.

(** X18: a HELLO is never rejected for the fields it lacks: a HELLO for
    which [users[steamId]] is falsy creates the record whatever pieces the
    message has; the record is shown connected with position "N/A"; a
    missing or empty name is shown as "(unknown)", a missing or empty id as
    "N/A", and a message without a second piece is stored under the key
    "undefined". *)
Theorem hello_with_missing_fields (s : Server) (ws : nat) (msg now : string) :
  command msg = Some "HELLO" →
  truthy (users_get s (key_of msg)) = false →
  let s' := (step s (Message ws msg now)).1 in
  let v := formatUser s' (new_user (parts msg) now) in
  users s' !! key_of msg = Some (new_user (parts msg) now)
  ∧ v ∈ formatUsers s'
  ∧ view_connected v = true
  ∧ view_lastPosition v = "N/A"
  ∧ (falsy (parts msg !! 2%nat) → view_username v = "(unknown)")
  ∧ (falsy (parts msg !! 1%nat) → view_steamId v = "N/A")
  ∧ (parts msg !! 1%nat = None → key_of msg = "undefined").
Proof.
  intros Hh Hk. cbn zeta.
  destruct (hello_falsy s ws msg now Hh Hk) as [Hnew _].
  split; [exact Hnew|]. split; [apply elem_of_formatUsers; eauto|].
  rewrite formatUser_fields.
  split; [|split; [done|split; [|split]]].
  - cbn [view_connected new_user mkUser steamId]. apply bool_decide_eq_true.
    cbn [step]. rewrite on_message_hello by done.
    destruct (hello_frame s ws (parts msg) now) as (-> & _).
    by apply elem_of_union_l, elem_of_singleton.
  - intros [H|H]; cbn [view_username new_user mkUser username get_field];
      by rewrite H.
  - intros [H|H]; cbn [view_steamId new_user mkUser steamId]; by rewrite H.
  - intros H. unfold key_of. by rewrite H.
Qed.

Lemma hello_with_missing_fields_witness :
  let s' := (step fresh (Message 1 "HELLO" "T0")).1 in
  users s' !! "undefined"
  = Some (mkUser None None None None (Some "T0") (Some "T0") (Some "N/A"))
  ∧ formatUsers s'
    = [mkUserView "(unknown)" "N/A" (LocaleString "T0") true "N/A"].
Proof.
  intros s'.
  destruct (hello_with_missing_fields fresh 1 "HELLO" "T0") as (Hu & _).
  - reflexivity.
  - reflexivity.
  - split; [exact Hu|]. vm_compute. reflexivity.
Defined.

(** ** Keys that find nothing on [Object.prototype] *)

(** X22: for a key that finds nothing on [Object.prototype] and has no
    record, the first HELLO sets [firstConnected] to its time, and it is
    still that time after every event that follows, in particular after any
    number of further HELLO messages that carry the key. *)
Theorem firstConnected_is_first_hello
    (s : Server) (key : string) (ws : nat) (msg now : string) (later : list Event) :
  ordinary_key key = true →
  users s !! key = None →
  hello_for key (Message ws msg now) = true →
  ∃ u, users (run s (Message ws msg now :: later)).1 !! key = Some u
       ∧ firstConnected u = Some now.
Proof.
  intros Hord Hk [Hc <-]%hello_for_true. rewrite run_cons. cbn [fst].
  destruct (hello_unknown_key s ws msg now Hc Hord Hk) as [Hnew _].
  destruct (run_firstConnected later _ _ _ Hnew) as (u & Hu & Hf).
  exists u. split; [exact Hu|]. by rewrite Hf.
Qed.

Lemma firstConnected_is_first_hello_witness :
  ∃ u, users (run fresh [Message 1 "HELLO|76561|Alice|EU|UTC+1" "T0";
                         Message 2 "HELLO|76561|Alicia|US|UTC-5" "T1";
                         Close 1;
                         Message 3 "HELLO|76561|Al|EU|UTC" "T2"]).1 !! "76561"
       = Some u
       ∧ firstConnected u = Some "T0".
Proof.
  apply (firstConnected_is_first_hello fresh "76561" 1
           "HELLO|76561|Alice|EU|UTC+1" "T0"); reflexivity.
Defined.

(** X23: a POSITION message for a key that finds nothing on
    [Object.prototype], had no record and has seen no HELLO since, is
    dropped: the state is as it was, and nothing is written to [users.json]
    or to any feed. *)
Theorem position_without_hello_is_dropped
    (s : Server) (before : list Event) (ws : nat) (msg now : string) :
  command msg = Some "POSITION" →
  ordinary_key (key_of msg) = true →
  users s !! key_of msg = None →
  Forall (fun e => hello_for (key_of msg) e = false) before →
  step (run s before).1 (Message ws msg now) = ((run s before).1, []).
Proof.
  intros Hc Hord Hk Hb. apply position_unknown_key; [done..|].
  by apply run_keeps_unknown.
Qed.

Lemma position_without_hello_is_dropped_witness :
  let s := (run fresh [GetEvents 9; Message 1 "HELLO|4242|Bob|US|UTC-5" "T0"]).1 in
  step s (Message 2 "POSITION|76561|1|2|3" "T1") = (s, []).
Proof.
  intros s.
  apply (position_without_hello_is_dropped fresh
           [GetEvents 9; Message 1 "HELLO|4242|Bob|US|UTC-5" "T0"]
           2 "POSITION|76561|1|2|3" "T1").
  - reflexivity.
  - reflexivity.
  - reflexivity.
  - repeat constructor.
Defined.

(** X24: after a start-up that found [users.json] unparseable, the first
    HELLO for a key that finds nothing on [Object.prototype], here after any
    events that are not a HELLO for the key, creates the record of that key
    with [firstConnected] the time of that HELLO and is answered with it. *)
Theorem hello_after_unparseable_store
    (before : list Event) (ws : nat) (msg now : string) :
  command msg = Some "HELLO" →
  ordinary_key (key_of msg) = true →
  Forall (fun e => hello_for (key_of msg) e = false) before →
  startup true Thrown = Returned (fresh, [Console LogParseFailed])
  ∧ users fresh = ∅
  ∧ let s := (run fresh before).1 in
    users (step s (Message ws msg now)).1 !! key_of msg
    = Some (new_user (parts msg) now)
    ∧ firstConnected (new_user (parts msg) now) = Some now
    ∧ WsSend ws (Some (new_user (parts msg) now)) ∈ (step s (Message ws msg now)).2.
Proof.
  intros Hc Hord Hb. repeat split.
  - apply hello_unknown_key; [done..|]. by apply run_keeps_unknown.
  - apply hello_unknown_key; [done..|]. by apply run_keeps_unknown.
Qed.

Lemma hello_after_unparseable_store_witness :
  startup true Thrown = Returned (fresh, [Console LogParseFailed])
  ∧ users (run fresh [Connection 1; Message 1 "HELLO|76561|Alice|EU|UTC+1" "T0"]).1
      !! "76561"
    = Some (mkUser (Some "76561") (Some "Alice") (Some "EU") (Some "UTC+1")
                   (Some "T0") (Some "T0") (Some "N/A")).
Proof.
  destruct (hello_after_unparseable_store [Connection 1] 1
              "HELLO|76561|Alice|EU|UTC+1" "T0") as (Hs & _ & Hu & _).
  - reflexivity.
  - reflexivity.
  - repeat constructor.
  - split; [exact Hs|exact Hu].
Defined.

(** ** The pieces of a message *)

Lemma split_not_nil (sep : ascii) (s : string) : split sep s ≠ [].
Proof.
  destruct s as [|c rest]; simpl; [done|].
  destruct (Ascii.eqb c sep); [done|]. by destruct (split sep rest).
Qed.

Lemma split_concat (sep : ascii) (s : string) :
  String.concat (String sep EmptyString) (split sep s) = s.
Proof.
  induction s as [|c rest IH]; [done|]. cbn [split].
  pose proof (split_not_nil sep rest) as Hne.
  destruct (Ascii.eqb_spec c sep) as [->|Hc].
  - destruct (split sep rest) as [|p ps]; [done|].
    change (String.concat (String sep "") ("" :: p :: ps))
      with (String sep (String.concat (String sep "") (p :: ps))).
    by rewrite IH.
  - destruct (split sep rest) as [|p ps]; [done|].
    destruct ps as [|p' ps].
    + simpl in *. by rewrite IH.
    + change (String.concat (String sep "") (String c p :: p' :: ps))
        with (String c (String.concat (String sep "") (p :: p' :: ps))).
      by rewrite IH.
Qed.

Lemma split_free (sep : ascii) (s : string) :
  Forall (free_of sep) (split sep s).
Proof.
  induction s as [|c rest IH]; cbn [split].
  - repeat constructor. unfold free_of. simpl. apply not_elem_of_nil.
  - destruct (Ascii.eqb_spec c sep) as [->|Hc].
    + constructor; [|done]. unfold free_of. simpl. apply not_elem_of_nil.
    + pose proof (split_not_nil sep rest) as Hne.
      destruct (split sep rest) as [|p ps]; [done|].
      inversion IH; subst. constructor; [|done].
      unfold free_of in *. simpl. rewrite not_elem_of_cons. split; [congruence|done].
Qed.

Lemma split_length (sep : ascii) (s : string) :
  length (split sep s)
  = S (length (filter (fun c => c = sep) (list_ascii_of_string s))).
Proof.
  induction s as [|c rest IH]; [done|]. cbn [split list_ascii_of_string].
  pose proof (split_not_nil sep rest) as Hne.
  destruct (Ascii.eqb_spec c sep) as [->|Hc].
  - rewrite filter_cons_True by done. simpl. by rewrite IH.
  - rewrite filter_cons_False by done.
    destruct (split sep rest) as [|p ps]; [done|]. exact IH.
Qed.

(** X13: splitting a message loses nothing: the pieces joined by "|" are the
    message again, no piece contains "|", there is one piece more than the
    message has "|" characters, and so there is always a first piece, the
    command. *)
Theorem parts_join_back (msg : string) :
  String.concat "|" (parts msg) = msg
  ∧ Forall (free_of "|") (parts msg)
  ∧ length (parts msg)
    = S (length (filter (fun c => c = "|"%char) (list_ascii_of_string msg)))
  ∧ is_Some (command msg).
Proof.
  unfold command, parts. split; [apply split_concat|].
  split; [apply split_free|]. split; [apply split_length|].
  pose proof (split_not_nil "|" msg) as Hne.
  destruct (split "|" msg); [done|]. simpl. eauto.
Qed.

Lemma split_free_piece (sep : ascii) (c : string) :
  free_of sep c → split sep c = [c].
Proof.
  unfold free_of. induction c as [|a c IH]; simpl; [done|].
  rewrite not_elem_of_cons. intros [Ha Hc].
  destruct (Ascii.eqb_spec a sep) as [->|_]; [done|]. by rewrite IH.
Qed.

Lemma split_free_prefix (sep : ascii) (c rest : string) :
  free_of sep c →
  split sep (c +:+ String sep rest) = c :: split sep rest.
Proof.
  unfold free_of. induction c as [|a c IH]; simpl.
  - intros _. by rewrite Ascii.eqb_refl.
  - rewrite not_elem_of_cons. intros [Ha Hc].
    destruct (Ascii.eqb_spec a sep) as [->|_]; [done|]. by rewrite IH.
Qed.

(** The first piece is [c] exactly for the message [c] and the messages that
    start with [c] and a separator. *)
Lemma first_piece_iff (sep : ascii) (c msg : string) :
  free_of sep c →
  split sep msg !! 0%nat = Some c
  ↔ msg = c ∨ ∃ rest, msg = c +:+ String sep rest.
Proof.
  intros Hc. split.
  - intros Hfirst. pose proof (split_concat sep msg) as Hjoin.
    destruct (split sep msg) as [|p ps]; [done|].
    simpl in Hfirst. injection Hfirst as ->.
    destruct ps as [|p' ps]; [by left|]. right.
    exists (String.concat (String sep "") (p' :: ps)). by rewrite <- Hjoin.
  - intros [->|[rest ->]].
    + by rewrite split_free_piece.
    + by rewrite split_free_prefix.
Qed.

(** X14: the command is matched exactly: a message is handled as a HELLO
    exactly when it is "HELLO" or starts with "HELLO|", and as a POSITION
    exactly when it is "POSITION" or starts with "POSITION|"; letter case and
    surrounding blanks are not forgiven. *)
Theorem command_is_matched_exactly (msg : string) :
  (command msg = Some "HELLO"
   ↔ msg = "HELLO" ∨ ∃ rest, msg = "HELLO|" +:+ rest)
  ∧ (command msg = Some "POSITION"
     ↔ msg = "POSITION" ∨ ∃ rest, msg = "POSITION|" +:+ rest).
Proof.
  unfold command, parts. split.
  - apply (first_piece_iff "|" "HELLO").
    unfold free_of. simpl. rewrite !not_elem_of_cons. repeat split; try done.
    apply not_elem_of_nil.
  - apply (first_piece_iff "|" "POSITION").
    unfold free_of. simpl. rewrite !not_elem_of_cons. repeat split; try done.
    apply not_elem_of_nil.
Qed.

(** ** The client of the repository *)

(** X15: the greeting of [client.js] is not a HELLO: when the client
    connects and the server receives what the client's open handler sends,
    the server only writes two console lines; the registry and the presence
    set stay as they were, no reply is sent on the socket, and so the client
    logs nothing beyond its own connection line. *)
Theorem client_greeting_is_only_logged (s : Server) (ws : nat) (now : string)
    (nows : list string) :
  client_session ws (now :: nows) s
  = (set_clients ({[ws]} ∪ clients s) s,
     [Console LogClientConnected;
      Console (LogUnknownCommand "Hello from client!")],
     [ClientConsole ClientConnected; ClientSend "Hello from client!"]).
Proof.
  unfold client_session.
  change (client_sent client_on_open) with ["Hello from client!"].
  cbn [zip_with]. rewrite !run_cons. cbn [run step fst snd].
  rewrite unknown_command_logged by discriminate. reflexivity.
Qed.

(** ** How close the stored text is to the coordinate *)

(** X21: the text stored for a coordinate is within half a hundredth of the
    number [parseFloat] read: for a coordinate read as [m * 2^e] below
    [10^21], the text is the sign and [n] hundredths, where [n] is
    [100 * m * 2^e] when the number is an integer and, otherwise, the
    integer nearest to [100 * m * 2^e], the larger one on a tie. *)
Theorem stored_coordinate_within_half_hundredth
    (v : JsVal) (neg : bool) (m : N) (e : Z) :
  JSNumber.parseFloat v = JSNumber.Finite neg m e →
  below_1e21 (JSNumber.Finite neg m e) = true →
  ∃ n : Z,
    JSNumber.read_fixed2 (JSNumber.toFixed 2 (JSNumber.parseFloat v))
    = Some (neg && (0 <? Z.of_N m)%Z, n)
    ∧ (0 ≤ e → n = Z.of_N m * 2 ^ e * 100)%Z
    ∧ (e < 0 →
       - 2 ^ (- e) < 2 * (n * 2 ^ (- e) - 100 * Z.of_N m) ≤ 2 ^ (- e))%Z.
Proof.
  intros Hv Hlt. rewrite Hv. rewrite (read_toFixed _ Hlt).
  exists (JSNumber.scaled_nearest 2 (Z.of_N m) e). split; [done|].
  apply scaled_nearest_hundredths.
Qed.

Lemma stored_coordinate_within_half_hundredth_witness :
  ∃ n : Z,
    JSNumber.read_fixed2 (JSNumber.toFixed 2 (JSNumber.parseFloat (Some "1.2345")))
    = Some (false, n)
    ∧ (- 2 ^ 52 < 2 * (n * 2 ^ 52 - 100 * 5559693739988877) ≤ 2 ^ 52)%Z.
Proof.
  destruct (stored_coordinate_within_half_hundredth (Some "1.2345") false
              5559693739988877 (-52)) as (n & Hn & _ & Hb).
  - vm_compute. reflexivity.
  - vm_compute. reflexivity.
  - exists n. split; [exact Hn|]. apply Hb. reflexivity.
Defined.
